(** * generate_instagram_posts.py: a shallow embedding and its properties

    The script turns one spreadsheet row into a bundle of files: square
    images, a caption, an alt text and a metadata record.  This file embeds
    [slugify], [generate_caption], [generate_alt_text] and [process_product]
    and states the behaviour of the bundle they produce.

    Conventions of the embedding.
    - Python [str] is a Rocq [string].  Non-ASCII text is carried as its
      UTF-8 bytes (the bullet of the caption is three bytes); [lower],
      [strip] and [int] act on ASCII letters, ASCII white space and ASCII
      digits and leave every other byte alone.  Statements that depend on
      it say so in their hypotheses.
    - A pandas row is a finite map from column names to cell values.
    - The network and the image codec are an oracle giving, for every
      attempt, what [requests.get] and [Image.open] produce.
    - The script never reads the file system, so its effect is the sequence
      of file-system operations it issues. *)

From Stdlib Require Import ZArith Lia Bool String Ascii List DecimalString.
From Stdlib Require DecimalZ DecimalPos.
From stdpp Require Import base gmap strings.
Import ListNotations.

Local Open Scope string_scope.
Local Open Scope list_scope.

(** ** Python text primitives *)

Module Text.

Definition code (c : ascii) : nat := nat_of_ascii c.

Definition between (lo hi : nat) (c : ascii) : bool :=
  (lo <=? code c)%nat && (code c <=? hi)%nat.

Definition is_upper : ascii -> bool := between 65 90.
Definition is_lower : ascii -> bool := between 97 122.
Definition is_digit : ascii -> bool := between 48 57.

(** [str.isspace] on the ASCII range: tab, LF, VT, FF, CR, FS, GS, RS, US
    and the space. *)
Definition is_space (c : ascii) : bool :=
  between 9 13 c || between 28 32 c.

Definition is_char (x c : ascii) : bool := Ascii.eqb c x.

Definition lower_char (c : ascii) : ascii :=
  if is_upper c then ascii_of_nat (code c + 32) else c.

(** [s.lower()] *)
Fixpoint lower (s : string) : string :=
  match s with
  | EmptyString => EmptyString
  | String c t => String (lower_char c) (lower t)
  end.

(** [s.lstrip(..)], [s.rstrip(..)], [s.strip(..)] for a set of characters
    given by its membership test. *)
Fixpoint lstrip (p : ascii -> bool) (s : string) : string :=
  match s with
  | EmptyString => EmptyString
  | String c t => if p c then lstrip p t else s
  end.

Fixpoint rstrip (p : ascii -> bool) (s : string) : string :=
  match s with
  | EmptyString => EmptyString
  | String c t =>
      match rstrip p t with
      | EmptyString => if p c then EmptyString else String c EmptyString
      | t' => String c t'
      end
  end.

Definition strip (p : ascii -> bool) (s : string) : string :=
  rstrip p (lstrip p s).

(** [s.split(sep)] for a one-character separator: never the empty list. *)
Fixpoint split (sep : ascii) (s : string) : list string :=
  match s with
  | EmptyString => [EmptyString]
  | String c t =>
      if Ascii.eqb c sep then EmptyString :: split sep t
      else match split sep t with
           | h :: r => String c h :: r
           | [] => [String c EmptyString]
           end
  end.

(** [bool(s)] *)
Definition nonempty (s : string) : bool :=
  match s with EmptyString => false | String _ _ => true end.

(** [s.startswith(c)] for a one-character prefix. *)
Definition startswith (c : ascii) (s : string) : bool :=
  match s with String d _ => Ascii.eqb d c | EmptyString => false end.

(** [str(n)] for an [int]. *)
Definition of_Z (z : Z) : string := NilZero.string_of_int (Z.to_int z).
Definition of_nat (n : nat) : string := of_Z (Z.of_nat n).

End Text.

(** ** slugify *)

(** The characters [a-z0-9] of the pattern. *)
Definition slug_alnum (c : ascii) : bool := Text.is_lower c || Text.is_digit c.

Definition hyphen : ascii := "-"%char.
Definition is_hyphen : ascii -> bool := Text.is_char hyphen.

(** [re.sub(r'[^a-z0-9]+', '-', value)]: every maximal run of characters
    outside [a-z0-9] becomes one hyphen.  [in_run] says that the character
    before the current one already belongs to a run. *)
Fixpoint sub_runs (in_run : bool) (s : string) : string :=
  match s with
  | EmptyString => EmptyString
  | String c t =>
      if slug_alnum c then String c (sub_runs false t)
      else if in_run then sub_runs true t
      else String hyphen (sub_runs true t)
  end.

Definition re_sub_non_alnum (value : string) : string := sub_runs false value.

Definition slugify (value : string) : string :=
  let value := Text.lower value in
  let value := re_sub_non_alnum value in
  let value := Text.strip is_hyphen value in
  if Text.nonempty value then value else "post".

(** ** Cell values and rows *)

(** What a cell of the row can hold: text, an integer, a finite float or the
    not-a-number float that pandas puts in an empty cell.  [VNone] is what
    [row.get(key)] gives for a column the table does not have.  A float is
    kept as the positional decimal that [repr] prints: sign, whole part and
    the digits after the point ([Nil] for a whole number, printed ".0"). *)
Inductive value : Type :=
  | VNone
  | VStr (s : string)
  | VInt (z : Z)
  | VFloat (neg : bool) (whole : N) (frac : Decimal.uint)
  | VNaN.

Inductive exn : Type := ValueError | TypeError | AttributeError.

Inductive result (A : Type) : Type :=
  | Ok (a : A)
  | Raise (e : exn).
Arguments Ok {A} a.
Arguments Raise {A} e.

Definition bind {A B : Type} (r : result A) (f : A -> result B) : result B :=
  match r with
  | Ok a => f a
  | Raise e => Raise e
  end.

Module Py.

Definition frac_nonzero (f : Decimal.uint) : bool :=
  match Decimal.nzhead f with Decimal.Nil => false | _ => true end.

(** [bool(v)]: not-a-number is a non-zero float, hence true. *)
Definition truthy (v : value) : bool :=
  match v with
  | VNone => false
  | VStr s => Text.nonempty s
  | VInt z => negb (z =? 0)%Z
  | VFloat _ w f => negb (w =? 0)%N || frac_nonzero f
  | VNaN => true
  end.

(** [pd.isna(v)] *)
Definition isna (v : value) : bool :=
  match v with
  | VNone | VNaN => true
  | _ => false
  end.

(** [isinstance(v, str)] *)
Definition is_str (v : value) : bool :=
  match v with VStr _ => true | _ => false end.

(** [str(v)], which is also what an f-string prints for [{v}]. *)
Definition str (v : value) : string :=
  match v with
  | VNone => "None"
  | VStr s => s
  | VInt z => Text.of_Z z
  | VFloat neg w f =>
      (if neg then "-" else "") +:+ Text.of_Z (Z.of_N w) +:+ "." +:+
      match f with
      | Decimal.Nil => "0"
      | _ => NilEmpty.string_of_uint f
      end
  | VNaN => "nan"
  end.

(** Decimal digits with single underscores between them, as [int] reads
    them; [seen] says that the previous character was a digit. *)
Fixpoint digits (acc : Z) (seen : bool) (s : string) : option Z :=
  match s with
  | EmptyString => if seen then Some acc else None
  | String c t =>
      if Text.is_digit c
      then digits (10 * acc + Z.of_nat (Text.code c - 48)) true t
      else if Text.is_char "_" c && seen then digits acc false t
      else None
  end.

(** The white space [int] skips around an ASCII text: tab, LF, VT, FF, CR
    and the space. *)
Definition is_c_space (c : ascii) : bool :=
  Text.between 9 13 c || Text.is_char " " c.

Fixpoint count_digits (s : string) : nat :=
  match s with
  | EmptyString => 0
  | String c t => if Text.is_digit c then S (count_digits t) else count_digits t
  end.

(** [sys.int_max_str_digits], the default limit on the digits [int] reads. *)
Definition int_max_str_digits : nat := 4300.

(** [int(s)] for an ASCII text: white space around, an optional sign,
    digits, and no more digits than the limit. *)
Definition int_of_text (s : string) : option Z :=
  let t := Text.strip is_c_space s in
  if (int_max_str_digits <? count_digits t)%nat then None
  else
    match t with
    | String "-" t => option_map Z.opp (digits 0 false t)
    | String "+" t => digits 0 false t
    | t => digits 0 false t
    end.

(** [int(v)]: truncation for a float, parsing for text. *)
Definition int (v : value) : result Z :=
  match v with
  | VNone => Raise TypeError
  | VStr s =>
      match int_of_text s with Some z => Ok z | None => Raise ValueError end
  | VInt z => Ok z
  | VFloat neg w _ => Ok (if neg then - Z.of_N w else Z.of_N w)%Z
  | VNaN => Raise ValueError
  end.

(** [a or b] *)
Definition or (a b : value) : value := if truthy a then a else b.

End Py.

(** A row of the table ([pd.Series]): column name to cell. *)
Abbreviation Series := (gmap string value).

(** [row.get(key, default)] and [row.get(key)] *)
Definition get (row : Series) (key : string) (default : value) : value :=
  match row !! key with
  | Some v => v
  | None => default
  end.

Definition get1 (row : Series) (key : string) : value := get row key VNone.

Definition nl : string := String (ascii_of_nat 10) EmptyString.

(** [sep.join(parts)] *)
Definition join (sep : string) (parts : list string) : string :=
  String.concat sep parts.

(** The list comprehension [[x.strip() for x in s.split(sep) if x.strip()]]. *)
Definition stripped_parts (sep : ascii) (s : string) : list string :=
  List.filter Text.nonempty
              (map (Text.strip Text.is_space) (Text.split sep s)).

(** ** generate_caption *)

Definition bullet : string := "• ".

Definition default_disclosure : string :=
  "As an Amazon Associate I earn from qualifying purchases.".

Definition generate_caption (row : Series) : result string :=
  let lines : list string := [] in
  let title := get row "title" (VStr "") in
  let lines :=
    if Py.truthy title then lines ++ ["Check out " +:+ Py.str title +:+ "!"]
    else lines in
  let benefits := get row "benefits_pipe" (VStr "") in
  let lines :=
    match benefits with
    | VStr b =>
        if Text.nonempty b
        then lines ++ map (fun benefit => bullet +:+ benefit) (stripped_parts "|" b)
        else lines
    | _ => lines
    end in
  let price := get1 row "price" in
  let rating := get1 row "rating" in
  let review_count := get1 row "review_count" in
  let lines :=
    if Py.truthy price && negb (Py.isna price)
    then lines ++ ["Price: " +:+ Py.str price]
    else lines in
  bind
    (if Py.truthy rating && negb (Py.isna rating)
     then
       bind
         (if Py.truthy review_count && negb (Py.isna review_count)
          then bind (Py.int review_count)
                    (fun n => Ok (" (" +:+ Text.of_Z n +:+ " reviews)"))
          else Ok "")
         (fun rc_str =>
            Ok (lines ++ ["Rating: " +:+ Py.str rating +:+ "/5" +:+ rc_str]))
     else Ok lines)
    (fun lines =>
       let cta_override := get row "cta_override" (VStr "") in
       let cta :=
         if Py.is_str cta_override && Py.truthy cta_override
         then Py.str cta_override
         else
           let affiliate_url := get row "affiliate_url" (VStr "") in
           if Py.truthy affiliate_url
           then "Learn more and buy here: " +:+ Py.str affiliate_url
           else "" in
       let lines := if Text.nonempty cta then lines ++ [cta] else lines in
       let hashtags := get row "hashtags_comma" (VStr "") in
       let lines :=
         match hashtags with
         | VStr h =>
             if Text.nonempty h
             then
               let parts := stripped_parts "," h in
               match parts with
               | [] => lines
               | _ =>
                   lines ++
                   [join " "
                      (map (fun part =>
                              if Text.startswith "#" part then part
                              else "#" +:+ part) parts)]
               end
             else lines
         | _ => lines
         end in
       let disclosure := get row "disclosure_override" (VStr "") in
       let disclosure :=
         if negb (Py.is_str disclosure && Py.truthy disclosure)
         then default_disclosure
         else Py.str disclosure in
       let lines := lines ++ [disclosure] in
       Ok (join nl lines)).

(** ** generate_alt_text *)

Definition generate_alt_text (row : Series) : string :=
  let alt_override := get row "alt_text_override" (VStr "") in
  if Py.is_str alt_override && Py.truthy alt_override
  then Py.str alt_override
  else
    let title := Py.or (get row "title" (VStr "")) (VStr "product") in
    let desc := get row "short_desc" (VStr "") in
    let desc :=
      match desc with
      | VStr d =>
          if Text.nonempty d
          then hd "" (Text.split "." (Text.strip Text.is_space d))
          else ""
      | _ => ""
      end in
    Text.strip Text.is_space ("Image of " +:+ Py.str title +:+ ". " +:+ desc).

(** ** The outside world: network, codec and file system *)

Record image : Type := Image {
  img_size : nat * nat;
  img_mode : string;
  img_data : string
}.

(** [img.convert(mode)] *)
Definition convert (img : image) (mode : string) : image :=
  {| img_size := img_size img; img_mode := mode; img_data := img_data img |}.

(** [ImageOps.fit(image, (size, size), Image.LANCZOS)]: the result has the
    requested size; how the pixels are resampled is left to the codec. *)
Definition square_image (img : image) (size : nat) : image :=
  {| img_size := (size, size); img_mode := img_mode img;
     img_data := img_data img |}.

Inductive fetch_error : Type := ConnectionError | Timeout | InvalidURL.

Record response : Type := Response {
  status_code : nat;
  resp_content : string
}.

Inductive fetched : Type :=
  | FetchFailed (why : fetch_error)
  | Reply (resp : response).

(** What [requests.get(url, timeout=10)] gives at the [i]-th iteration of the
    loop, and what [Image.open] makes of a body ([None]: it does not decode). *)
Record Env : Type := {
  requests_get : nat -> string -> fetched;
  image_open : string -> option image
}.

(** [resp.raise_for_status()] raises for a 4xx or 5xx status. *)
Definition status_ok (resp : response) : bool :=
  negb ((400 <=? status_code resp)%nat && (status_code resp <? 600)%nat).

Abbreviation path := (list string).

(** [p / name] of pathlib, for a one-segment name. *)
Definition child (p : path) (name : string) : path := p ++ [name].
Infix "//" := child (at level 40, left associativity).

Record meta : Type := Meta {
  m_product_id : string;
  m_title : value;
  m_post_type : value;
  m_images : list string;
  m_caption_file : string;
  m_alt_text_file : string;
  m_affiliate_url : value
}.

Inductive file_content : Type :=
  | Text_ (s : string)
  | Jpeg (quality : nat) (img : image)
  | Json (m : meta).

(** The operations the script issues on the file system.  They are taken to
    succeed; [EvMkdir] is [mkdir(parents=True, exist_ok=True)]. *)
Inductive event : Type :=
  | EvMkdir (p : path)
  | EvWrite (p : path) (c : file_content).

Abbreviation FS := (gmap (list string) file_content).

Definition apply_event (fs : FS) (e : event) : FS :=
  match e with
  | EvMkdir _ => fs
  | EvWrite p c => <[p := c]> fs
  end.

(** The files after a sequence of operations. *)
Definition fs_after (fs : FS) (trace : list event) : FS :=
  fold_left apply_event trace fs.

(** ** process_product *)

Definition resolve_product_id (row : Series) : result string :=
  let product_id := get1 row "product_id" in
  if Py.truthy product_id then Ok (Py.str product_id)
  else
    match get row "title" (VStr "post") with
    | VStr t => Ok (slugify t)
    | _ => Raise AttributeError
    end.

Definition image_name (n : nat) : string :=
  "image_" +:+ Text.of_nat n +:+ ".jpg".

(** The body of the [try]: the squared picture when the fetch, the status
    check and the decoding all go through, [None] when one of them raises. *)
Definition attempt (env : Env) (i : nat) (url : string) : option image :=
  match requests_get env i url with
  | FetchFailed _ => None
  | Reply resp =>
      if status_ok resp then
        match image_open env (resp_content resp) with
        | Some img => Some (square_image (convert img "RGB") 1080)
        | None => None
        end
      else None
  end.

(** [enumerate(xs, start)] and [enumerate(xs)] *)
Definition enumerate_from {A : Type} (start : nat) (xs : list A)
    : list (nat * A) :=
  combine (seq start (length xs)) xs.

Definition enumerate {A : Type} (xs : list A) : list (nat * A) :=
  enumerate_from 0 xs.

(** The download loop: the operations issued and [downloaded_files]. *)
Fixpoint download_loop (env : Env) (images_path : path)
    (items : list (nat * string)) : list event * list string :=
  match items with
  | [] => ([], [])
  | (i, url) :: rest =>
      if (10 <=? i)%nat then ([], [])
      else
        let '(saves, downloaded_files) := download_loop env images_path rest in
        match attempt env i url with
        | Some img_sq =>
            let fname := image_name (i + 1) in
            (EvWrite (images_path // fname) (Jpeg 90 img_sq) :: saves,
             fname :: downloaded_files)
        | None => (saves, downloaded_files)
        end
  end.

Definition image_urls (row : Series) : list string :=
  match get row "image_urls_comma" (VStr "") with
  | VStr imgs_field =>
      if Text.nonempty imgs_field then stripped_parts "," imgs_field else []
  | _ => []
  end.

(** The operations issued for one row, and whether the call returns or
    raises.  Operations issued before an exception stay issued. *)
Definition process_product (env : Env) (row : Series) (out_dir : path)
    : list event * result unit :=
  match resolve_product_id row with
  | Raise e => ([], Raise e)
  | Ok product_id =>
      let product_slug := slugify product_id in
      let prod_path := out_dir // product_slug in
      let images_path := prod_path // "images" in
      let '(saves, downloaded_files) :=
        download_loop env images_path (enumerate (image_urls row)) in
      let trace := EvMkdir images_path :: saves in
      match generate_caption row with
      | Raise e => (trace, Raise e)
      | Ok caption =>
          let alt_text := generate_alt_text row in
          let meta :=
            {| m_product_id := product_id;
               m_title := get1 row "title";
               m_post_type := get1 row "post_type";
               m_images := downloaded_files;
               m_caption_file := "caption.txt";
               m_alt_text_file := "alt_text.txt";
               m_affiliate_url := get1 row "affiliate_url" |} in
          (trace ++
           [EvWrite (prod_path // "caption.txt") (Text_ caption);
            EvWrite (prod_path // "alt_text.txt") (Text_ alt_text);
            EvWrite (prod_path // "meta.json") (Json meta)],
           Ok tt)
      end
  end.

(** ** Vocabulary of the properties *)

(** *** Shape of a slug *)

Fixpoint all_chars (p : ascii -> bool) (s : string) : bool :=
  match s with
  | EmptyString => true
  | String c t => p c && all_chars p t
  end.

Definition first_is (p : ascii -> bool) (s : string) : bool :=
  match s with
  | EmptyString => false
  | String c _ => p c
  end.

Fixpoint last_is (p : ascii -> bool) (s : string) : bool :=
  match s with
  | EmptyString => false
  | String c EmptyString => p c
  | String _ t => last_is p t
  end.

(** No two neighbouring characters both satisfy [p]. *)
Fixpoint no_pair (p : ascii -> bool) (s : string) : bool :=
  match s with
  | EmptyString => true
  | String c t => negb (p c && first_is p t) && no_pair p t
  end.

Definition slug_char (c : ascii) : bool := slug_alnum c || is_hyphen c.

(** Lowercase letters, digits and single hyphens between them. *)
Definition slug_shaped (s : string) : bool :=
  Text.nonempty s && all_chars slug_char s && negb (first_is is_hyphen s)
  && negb (last_is is_hyphen s) && no_pair is_hyphen s.

(** An ASCII letter of either case, or a digit. *)
Definition alphanumeric (c : ascii) : bool :=
  Text.is_upper c || Text.is_lower c || Text.is_digit c.

(** [t in s] *)
Fixpoint contains (t s : string) : bool :=
  match s with
  | EmptyString => String.prefix t EmptyString
  | String _ r => String.prefix t s || contains t r
  end.

(** The two characters outside ASCII whose lower-case form has an ASCII
    letter: the Kelvin sign U+212A (lower case "k") and the dotted capital I
    U+0130 (lower case "i" and a combining dot), as their UTF-8 bytes. *)
Definition kelvin_sign : string :=
  String (ascii_of_nat 226) (String (ascii_of_nat 132)
    (String (ascii_of_nat 170) EmptyString)).

Definition dotted_capital_i : string :=
  String (ascii_of_nat 196) (String (ascii_of_nat 176) EmptyString).

(** The text has a character that [lower] of this file, which acts on ASCII
    letters only, does not lower as [str.lower] does for [slugify]. *)
Definition lowers_into_ascii (s : string) : bool :=
  contains kelvin_sign s || contains dotted_capital_i s.

(** *** Image numbering *)

Definition succeeds (env : Env) (item : nat * string) : bool :=
  match attempt env (fst item) (snd item) with
  | Some _ => true
  | None => false
  end.

(** The URLs the loop gets to: the first ten, with their positions. *)
Definition attempted (urls : list string) : list (nat * string) :=
  List.filter (fun item => (fst item <? 10)%nat) (enumerate urls).

(** K, the number of fetch-and-decode successes. *)
Definition successes (env : Env) (urls : list string) : nat :=
  length (List.filter (succeeds env) (attempted urls)).

(** What the loop does with one URL: it writes the squared picture under the
    name of the URL's position when the fetch and the decoding go through,
    and nothing otherwise. *)
Definition save_of (env : Env) (images_path : path) (item : nat * string)
    : list event :=
  match attempt env (fst item) (snd item) with
  | Some img_sq =>
      [EvWrite (images_path // image_name (fst item + 1)) (Jpeg 90 img_sq)]
  | None => []
  end.

(** The numbering as the specification words it: 1..K without gaps. *)
Definition contiguous_numbering : Prop :=
  forall (env : Env) (images_path : path) (urls : list string),
    snd (download_loop env images_path (enumerate urls))
    = map image_name (seq 1 (successes env urls)).

(** *** Files written under a directory *)

Fixpoint split_last (p : path) : option (path * string) :=
  match p with
  | [] => None
  | s :: t =>
      match split_last t with
      | Some (d, n) => Some (s :: d, n)
      | None => Some ([], s)
      end
  end.

(** The names of the files written directly under [dir], in order. *)
Fixpoint written_under (dir : path) (trace : list event) : list string :=
  match trace with
  | [] => []
  | EvMkdir _ :: rest => written_under dir rest
  | EvWrite p _ :: rest =>
      match split_last p with
      | Some (d, n) =>
          if decide (d = dir) then n :: written_under dir rest
          else written_under dir rest
      | None => written_under dir rest
      end
  end.

(** *** Resolved fields *)

(** A cell that holds non-empty text. *)
Definition text_of (v : value) : option string :=
  match v with
  | VStr s => if Text.nonempty s then Some s else None
  | _ => None
  end.

(** The part of a text before its first period. *)
Definition up_to_period (s : string) : string := hd "" (Text.split "." s).

(** The cell holds something: a non-empty text or a number. *)
Definition present (v : value) : bool :=
  match v with
  | VNone | VNaN => false
  | VStr s => Text.nonempty s
  | VInt _ | VFloat _ _ _ => true
  end.

(** The title to print: the cell when it holds something, else "product". *)
Definition title_or_product (row : Series) : string :=
  let title := get row "title" (VStr "") in
  if present title then Py.str title else "product".

(** The alt text as the specification words it: the description is cut at
    its first period and appended as it is. *)
Definition alt_text_as_stated (row : Series) : string :=
  match text_of (get row "alt_text_override" (VStr "")) with
  | Some o => o
  | None =>
      let desc :=
        match text_of (get row "short_desc" (VStr "")) with
        | Some d => up_to_period d
        | None => ""
        end in
      Text.strip Text.is_space
        ("Image of " +:+ title_or_product row +:+ ". " +:+ desc)
  end.

(** The same with the description trimmed before it is cut. *)
Definition alt_text_trimmed (row : Series) : string :=
  match text_of (get row "alt_text_override" (VStr "")) with
  | Some o => o
  | None =>
      let desc :=
        match text_of (get row "short_desc" (VStr "")) with
        | Some d => up_to_period (Text.strip Text.is_space d)
        | None => ""
        end in
      Text.strip Text.is_space
        ("Image of " +:+ title_or_product row +:+ ". " +:+ desc)
  end.

(** The truth value of the title cell tells whether it holds a title: the
    cell is neither the not-a-number of an empty cell (true, yet no title)
    nor a zero (a title, yet false). *)
Definition title_judged_by_truth (row : Series) : Prop :=
  Py.truthy (get row "title" (VStr "")) = present (get row "title" (VStr "")).

(** *** The lines of a caption *)

(** The lines before the call to action: title, benefits, price, rating. *)
Definition opening_lines (row : Series) : result (list string) :=
  let title := get row "title" (VStr "") in
  let title_line :=
    if Py.truthy title then ["Check out " +:+ Py.str title +:+ "!"] else [] in
  let bullets :=
    match text_of (get row "benefits_pipe" (VStr "")) with
    | Some b => map (fun benefit => bullet +:+ benefit) (stripped_parts "|" b)
    | None => []
    end in
  let price := get1 row "price" in
  let price_line :=
    if Py.truthy price && negb (Py.isna price)
    then ["Price: " +:+ Py.str price] else [] in
  let rating := get1 row "rating" in
  let review_count := get1 row "review_count" in
  if Py.truthy rating && negb (Py.isna rating)
  then
    bind
      (if Py.truthy review_count && negb (Py.isna review_count)
       then bind (Py.int review_count)
                 (fun n => Ok (" (" +:+ Text.of_Z n +:+ " reviews)"))
       else Ok "")
      (fun rc_str =>
         Ok (title_line ++ bullets ++ price_line ++
             ["Rating: " +:+ Py.str rating +:+ "/5" +:+ rc_str]))
  else Ok (title_line ++ bullets ++ price_line).

(** The call to action: the override when it is non-empty text, else the
    synthesized line when the affiliate_url cell counts as true. *)
Definition call_to_action (row : Series) : list string :=
  match text_of (get row "cta_override" (VStr "")) with
  | Some o => [o]
  | None =>
      let affiliate_url := get row "affiliate_url" (VStr "") in
      if Py.truthy affiliate_url
      then ["Learn more and buy here: " +:+ Py.str affiliate_url]
      else []
  end.

Definition hashtag_line (row : Series) : list string :=
  match text_of (get row "hashtags_comma" (VStr "")) with
  | Some h =>
      match stripped_parts "," h with
      | [] => []
      | parts =>
          [join " "
             (map (fun part =>
                     if Text.startswith "#" part then part else "#" +:+ part)
                  parts)]
      end
  | None => []
  end.

Definition disclosure_line (row : Series) : string :=
  default default_disclosure (text_of (get row "disclosure_override" (VStr ""))).

(** *** Sample rows *)

Definition row_of (cells : list (string * value)) : Series := list_to_map cells.

(** The record of the caption example; the override cells are empty. *)
Definition widget_cells : list (string * value) :=
  [("title", VStr "Widget");
   ("benefits_pipe", VStr "Fast|Light");
   ("price", VStr "$9");
   ("rating", VFloat false 4 (Decimal.D5 Decimal.Nil));
   ("review_count", VInt 10);
   ("affiliate_url", VStr "http://x");
   ("hashtags_comma", VStr "deal,new")].

Definition widget_row : Series :=
  row_of (widget_cells ++
          [("cta_override", VNaN); ("disclosure_override", VNaN);
           ("alt_text_override", VNaN)]).


(** A row whose title cell is empty. *)
Definition untitled_row : Series :=
  row_of [("product_id", VStr "p1"); ("title", VNaN);
          ("short_desc", VStr "Great tool. Buy now.");
          ("affiliate_url", VStr "http://x")].

(** A row whose identifier cell is empty. *)
Definition unidentified_row : Series :=
  row_of [("product_id", VNaN); ("title", VStr "Widget")].

(** A row whose identifier and title cells are both empty. *)
Definition anonymous_row : Series :=
  row_of [("product_id", VNaN); ("title", VNaN)].

(** A row with a title and nothing to link to. *)
Definition unlinked_row : Series :=
  row_of [("title", VStr "Widget"); ("affiliate_url", VNaN);
          ("cta_override", VNaN)].

(** A row whose description starts with a blank. *)
Definition indented_row : Series :=
  row_of [("title", VStr "Widget"); ("short_desc", VStr " Great tool. Buy now.")].

Definition alt_row : Series :=
  row_of [("title", VStr "Widget"); ("short_desc", VStr "Great tool. Buy now.")].

(** A network on which the first URL fails and every other one is a picture. *)
Definition picture : image :=
  {| img_size := (640, 480); img_mode := "P"; img_data := "pixels" |}.

Definition first_fails : Env :=
  {| requests_get := fun i _ =>
       match i with
       | O => FetchFailed Timeout
       | _ => Reply {| status_code := 200; resp_content := "jpeg" |}
       end;
     image_open := fun _ => Some picture |}.

(** A network on which nothing can be fetched. *)
Definition offline : Env :=
  {| requests_get := fun _ _ => FetchFailed ConnectionError;
     image_open := fun _ => None |}.

Definition two_urls_row : Series :=
  row_of [("product_id", VStr "p1"); ("title", VStr "Widget");
          ("image_urls_comma", VStr "http://a/1.jpg, http://a/2.jpg")].

(** ** main *)

(** What the script finds at [--excel]: nothing, a file [pd.read_excel]
    cannot read, or a table with its rows in order. *)
Inductive excel_file : Type :=
  | Missing
  | Unreadable
  | Table (rows : list Series).

(** How a run of the script ends. *)
Inductive run_end : Type :=
  | Completed
  | FileNotFound
  | ReadFailed
  | RowRaised (index : nat) (e : exn).

(** The loop over [df.iterrows()]: the rows one after the other, from row
    number [index]; an exception of [process_product] ends the loop.
    [world] gives the network and codec met while a row is processed. *)
Fixpoint process_rows (world : nat -> Env) (index : nat) (rows : list Series)
    (out_path : path) : list event * run_end :=
  match rows with
  | [] => ([], Completed)
  | row :: rest =>
      match process_product (world index) row out_path with
      | (trace, Ok _) =>
          let '(later, ending) := process_rows world (S index) rest out_path in
          (trace ++ later, ending)
      | (trace, Raise e) => (trace, RowRaised index e)
      end
  end.

Definition main (world : nat -> Env) (excel : excel_file) (out_path : path)
    : list event * run_end :=
  match excel with
  | Missing => ([], FileNotFound)
  | Unreadable => ([EvMkdir out_path], ReadFailed)
  | Table rows =>
      let '(trace, ending) := process_rows world 0 rows out_path in
      (EvMkdir out_path :: trace, ending)
  end.

(** ** Further vocabulary *)

(** The characters of [s] that satisfy [p], in order. *)
Fixpoint filter_chars (p : ascii -> bool) (s : string) : string :=
  match s with
  | EmptyString => EmptyString
  | String c t => if p c then String c (filter_chars p t) else filter_chars p t
  end.

(** Neither a letter of either case nor a digit. *)
Definition punctuation (c : ascii) : bool := negb (alphanumeric c).

(** A character of the ASCII range. *)
Definition is_ascii (c : ascii) : bool := (Text.code c <? 128)%nat.

(** An ASCII character that is neither a letter nor a digit. *)
Definition ascii_punctuation (c : ascii) : bool := is_ascii c && punctuation c.

(** The path an operation acts on. *)
Definition event_path (e : event) : path :=
  match e with
  | EvMkdir p => p
  | EvWrite p _ => p
  end.

(** A picture as the script saves it: JPEG of quality 90, 1080 by 1080, RGB. *)
Definition standard_picture (c : file_content) : Prop :=
  match c with
  | Jpeg quality img =>
      quality = 90 /\ img_size img = (1080, 1080) /\ img_mode img = "RGB"
  | _ => True
  end.

(** The two steps of a row that can raise both go through. *)
Definition row_ok (row : Series) : Prop :=
  (exists product_id, resolve_product_id row = Ok product_id)
  /\ (exists caption, generate_caption row = Ok caption).

(** A cell the row does not fill: the column is missing or the cell is empty. *)
Definition unfilled (row : Series) (key : string) : Prop :=
  row !! key = None \/ row !! key = Some VNaN.

(** A row whose caption cannot be composed: the review count is a word. *)
Definition wordy_row : Series :=
  row_of [("product_id", VStr "p1"); ("title", VStr "Widget");
          ("rating", VFloat false 4 (Decimal.D5 Decimal.Nil));
          ("review_count", VStr "many");
          ("image_urls_comma", VStr "http://a/1.jpg, http://a/2.jpg")].

(** A network on which every URL is a picture. *)
Definition online : Env :=
  {| requests_get := fun _ _ =>
       Reply {| status_code := 200; resp_content := "jpeg" |};
     image_open := fun _ => Some picture |}.

(* ====================================================================== *)
(** * Properties *)

(** ** Characters *)

Lemma hyphen_eq c : is_hyphen c = true -> c = hyphen.
Proof. unfold is_hyphen, Text.is_char. apply Ascii.eqb_eq. Qed.

Lemma alnum_not_hyphen c : slug_alnum c = true -> is_hyphen c = false.
Proof.
  intros Hc. destruct (is_hyphen c) eqn:E; [|reflexivity].
  apply hyphen_eq in E. subst c. discriminate Hc.
Qed.

Lemma between_spec lo hi c :
  Text.between lo hi c = true <-> (lo <= Text.code c /\ Text.code c <= hi)%nat.
Proof.
  unfold Text.between. rewrite andb_true_iff, !Nat.leb_le. reflexivity.
Qed.

Lemma between_disjoint lo hi lo' hi' c :
  (hi < lo' \/ hi' < lo)%nat ->
  Text.between lo hi c = true -> Text.between lo' hi' c = false.
Proof.
  intros Hd H. apply between_spec in H.
  destruct (Text.between lo' hi' c) eqn:E; [|reflexivity].
  apply between_spec in E. lia.
Qed.

Lemma alnum_not_upper c : slug_alnum c = true -> Text.is_upper c = false.
Proof.
  unfold slug_alnum. intros [H|H]%orb_true_iff.
  - apply (between_disjoint 97 122); [lia | exact H].
  - apply (between_disjoint 48 57); [lia | exact H].
Qed.

Lemma lower_char_slug c : slug_char c = true -> Text.lower_char c = c.
Proof.
  unfold slug_char, Text.lower_char. intros [H|H]%orb_true_iff.
  - rewrite (alnum_not_upper c H). reflexivity.
  - apply hyphen_eq in H. subst c. reflexivity.
Qed.

Lemma lower_char_plain c :
  alphanumeric c = false -> slug_alnum (Text.lower_char c) = false.
Proof.
  unfold alphanumeric, slug_alnum, Text.lower_char.
  intros H. apply orb_false_iff in H as [H Hd].
  apply orb_false_iff in H as [Hu Hl].
  rewrite Hu, Hl, Hd. reflexivity.
Qed.

(** ** Strings *)

Lemma app_cons c a b : String c a +:+ b = String c (a +:+ b).
Proof. reflexivity. Qed.

Lemma app_empty b : "" +:+ b = b.
Proof. reflexivity. Qed.

Lemma all_chars_In p s :
  all_chars p s = true -> forall c, In c (list_ascii_of_string s) -> p c = true.
Proof.
  induction s as [|d t IH]; simpl; intros H c Hin; [contradiction|].
  apply andb_true_iff in H as [Hd Ht].
  destruct Hin as [->|Hin]; [exact Hd | exact (IH Ht c Hin)].
Qed.

Lemma In_all_chars p s :
  (forall c, In c (list_ascii_of_string s) -> p c = true) -> all_chars p s = true.
Proof.
  induction s as [|d t IH]; simpl; intros H; [reflexivity|].
  apply andb_true_iff. split; [apply H; now left|].
  apply IH. intros c Hc. apply H. now right.
Qed.

Lemma last_is_snoc p t c : last_is p (t +:+ String c "") = p c.
Proof.
  induction t as [|d t IH]; [reflexivity|].
  rewrite app_cons. simpl. rewrite IH.
  destruct (t +:+ String c "") eqn:E; [|reflexivity].
  destruct t; discriminate E.
Qed.

Lemma no_pair_infix p a c d b :
  p c = true -> p d = true -> no_pair p (a +:+ String c (String d b)) = false.
Proof.
  intros Hc Hd. induction a as [|x a IH].
  - rewrite app_empty. simpl. rewrite Hc, Hd. reflexivity.
  - rewrite app_cons. simpl. rewrite IH. apply andb_false_r.
Qed.

Section Strip.

Variable p : ascii -> bool.

Lemma lstrip_first : forall s, first_is p (Text.lstrip p s) = false.
Proof.
  induction s as [|c t IH]; [reflexivity|].
  simpl. destruct (p c) eqn:E; [exact IH | simpl; exact E].
Qed.

Lemma lstrip_all q : forall s,
  all_chars q s = true -> all_chars q (Text.lstrip p s) = true.
Proof.
  induction s as [|c t IH]; [reflexivity|].
  intros H. simpl. destruct (p c); [|exact H].
  simpl in H. apply andb_true_iff in H as [_ H]. exact (IH H).
Qed.

Lemma lstrip_no_pair q : forall s,
  no_pair q s = true -> no_pair q (Text.lstrip p s) = true.
Proof.
  induction s as [|c t IH]; [reflexivity|].
  intros H. simpl. destruct (p c); [|exact H].
  simpl in H. apply andb_true_iff in H as [_ H]. exact (IH H).
Qed.

Lemma lstrip_id : forall s, first_is p s = false -> Text.lstrip p s = s.
Proof. intros [|c t]; simpl; [reflexivity|]. intros ->. reflexivity. Qed.

Lemma lstrip_all_gone : forall s,
  all_chars p s = true -> Text.lstrip p s = "".
Proof.
  induction s as [|c t IH]; [reflexivity|].
  simpl. intros [Hc Ht]%andb_true_iff. rewrite Hc. exact (IH Ht).
Qed.

Lemma rstrip_cons c t :
  Text.rstrip p (String c t) =
  match Text.rstrip p t with
  | EmptyString => if p c then EmptyString else String c EmptyString
  | t' => String c t'
  end.
Proof. reflexivity. Qed.

Lemma rstrip_last : forall s, last_is p (Text.rstrip p s) = false.
Proof.
  induction s as [|c t IH]; [reflexivity|].
  rewrite rstrip_cons. destruct (Text.rstrip p t) as [|a r] eqn:E.
  - destruct (p c) eqn:Hc; simpl; [reflexivity | exact Hc].
  - exact IH.
Qed.

Lemma rstrip_first q : forall s,
  first_is q (Text.rstrip p s) = true -> first_is q s = true.
Proof.
  intros [|c t]; [discriminate|].
  rewrite rstrip_cons. destruct (Text.rstrip p t); [destruct (p c)|];
    simpl; intros H; try discriminate; exact H.
Qed.

Lemma rstrip_all q : forall s,
  all_chars q s = true -> all_chars q (Text.rstrip p s) = true.
Proof.
  induction s as [|c t IH]; [reflexivity|].
  simpl all_chars at 1. intros [Hc Ht]%andb_true_iff.
  rewrite rstrip_cons. specialize (IH Ht).
  destruct (Text.rstrip p t) as [|a r].
  - destruct (p c); simpl; [reflexivity | rewrite Hc; reflexivity].
  - simpl in *. rewrite Hc. exact IH.
Qed.

Lemma rstrip_no_pair q : forall s,
  no_pair q s = true -> no_pair q (Text.rstrip p s) = true.
Proof.
  induction s as [|c t IH]; [reflexivity|].
  simpl no_pair at 1. intros [Hc Ht]%andb_true_iff.
  rewrite rstrip_cons. specialize (IH Ht).
  pose proof (rstrip_first q t) as Hf.
  destruct (Text.rstrip p t) as [|a r].
  - destruct (p c); simpl; [reflexivity | rewrite andb_false_r; reflexivity].
  - change (no_pair q (String c (String a r)))
      with (negb (q c && q a) && no_pair q (String a r)).
    rewrite IH, andb_true_r.
    destruct (q c); [|reflexivity]. simpl in Hf, Hc |- *.
    destruct (q a); [|reflexivity].
    rewrite (Hf eq_refl) in Hc. discriminate Hc.
Qed.

Lemma rstrip_id : forall s, last_is p s = false -> Text.rstrip p s = s.
Proof.
  induction s as [|c t IH]; [reflexivity|].
  intros H. rewrite rstrip_cons. destruct t as [|a r].
  - simpl in *. rewrite H. reflexivity.
  - rewrite (IH H). reflexivity.
Qed.

End Strip.

(** ** slugify: the shape of its result *)

Lemma lower_slug : forall s, all_chars slug_char s = true -> Text.lower s = s.
Proof.
  induction s as [|c t IH]; [reflexivity|].
  simpl. intros [Hc Ht]%andb_true_iff.
  rewrite (lower_char_slug c Hc), (IH Ht). reflexivity.
Qed.

Lemma lower_plain : forall s,
  all_chars (fun c => negb (alphanumeric c)) s = true ->
  all_chars (fun c => negb (slug_alnum c)) (Text.lower s) = true.
Proof.
  induction s as [|c t IH]; [reflexivity|].
  simpl. intros [Hc Ht]%andb_true_iff.
  apply negb_true_iff in Hc. rewrite (lower_char_plain c Hc). exact (IH Ht).
Qed.

Lemma sub_runs_chars : forall s b, all_chars slug_char (sub_runs b s) = true.
Proof.
  induction s as [|c t IH]; intros b; [reflexivity|].
  simpl. destruct (slug_alnum c) eqn:Hc.
  - simpl. rewrite IH. unfold slug_char. rewrite Hc. reflexivity.
  - destruct b; [apply IH|]. simpl. apply IH.
Qed.

Lemma sub_runs_single : forall s b,
  no_pair is_hyphen (sub_runs b s) = true /\
  (b = true -> first_is is_hyphen (sub_runs b s) = false).
Proof.
  induction s as [|c t IH]; intros b; [split; reflexivity|].
  simpl. destruct (slug_alnum c) eqn:Hc.
  - split.
    + simpl. rewrite (alnum_not_hyphen c Hc). apply (IH false).
    + intros _. simpl. exact (alnum_not_hyphen c Hc).
  - destruct b.
    + apply (IH true).
    + split; [|discriminate].
      destruct (IH true) as [Hn Hf]. simpl.
      rewrite (Hf eq_refl), Hn. reflexivity.
Qed.

Lemma sub_runs_plain : forall s b,
  all_chars (fun c => negb (slug_alnum c)) s = true ->
  all_chars is_hyphen (sub_runs b s) = true.
Proof.
  induction s as [|c t IH]; intros b; [reflexivity|].
  simpl. intros [Hc Ht]%andb_true_iff. apply negb_true_iff in Hc.
  rewrite Hc. destruct b; [exact (IH true Ht)|].
  simpl. exact (IH true Ht).
Qed.

Lemma sub_runs_id : forall s b,
  all_chars slug_char s = true ->
  no_pair is_hyphen s = true ->
  (b = true -> first_is is_hyphen s = false) ->
  sub_runs b s = s.
Proof.
  induction s as [|c t IH]; intros b Hall Hn Hb; [reflexivity|].
  simpl in Hall, Hn |- *.
  apply andb_true_iff in Hall as [Hc Hall].
  apply andb_true_iff in Hn as [Hh Hn].
  destruct (slug_alnum c) eqn:Ha.
  - rewrite (IH false Hall Hn); [reflexivity | discriminate].
  - unfold slug_char in Hc. rewrite Ha in Hc. simpl in Hc.
    destruct b.
    + specialize (Hb eq_refl). simpl in Hb. congruence.
    + rewrite Hc in Hh. simpl in Hh. apply negb_true_iff in Hh.
      rewrite (IH true Hall Hn (fun _ => Hh)).
      rewrite (hyphen_eq c Hc). reflexivity.
Qed.

Lemma slug_shaped_parts s :
  slug_shaped s = true <->
  Text.nonempty s = true /\ all_chars slug_char s = true /\
  first_is is_hyphen s = false /\ last_is is_hyphen s = false /\
  no_pair is_hyphen s = true.
Proof.
  unfold slug_shaped. rewrite !andb_true_iff, !negb_true_iff. tauto.
Qed.

(** What [slugify] computes before it falls back to "post". *)
Lemma stripped_runs_shape s :
  let v := Text.strip is_hyphen (re_sub_non_alnum (Text.lower s)) in
  all_chars slug_char v = true /\ first_is is_hyphen v = false /\
  last_is is_hyphen v = false /\ no_pair is_hyphen v = true.
Proof.
  unfold Text.strip, re_sub_non_alnum. cbv zeta.
  set (r := sub_runs false (Text.lower s)).
  repeat split.
  - apply rstrip_all, lstrip_all, sub_runs_chars.
  - destruct (first_is is_hyphen (Text.rstrip is_hyphen (Text.lstrip is_hyphen r)))
      eqn:E; [|reflexivity].
    apply rstrip_first in E. rewrite lstrip_first in E. discriminate E.
  - apply rstrip_last.
  - apply rstrip_no_pair, lstrip_no_pair, sub_runs_single.
Qed.

Lemma slugify_shaped s : slug_shaped (slugify s) = true.
Proof.
  unfold slugify. cbv zeta.
  pose proof (stripped_runs_shape s) as H. cbv zeta in H.
  destruct (Text.nonempty _) eqn:E; [|reflexivity].
  apply slug_shaped_parts. tauto.
Qed.

Lemma slugify_fixes_slugs s : slug_shaped s = true -> slugify s = s.
Proof.
  intros (Hne & Hall & Hf & Hl & Hn)%slug_shaped_parts.
  unfold slugify, re_sub_non_alnum, Text.strip. cbv zeta.
  rewrite (lower_slug s Hall).
  rewrite (sub_runs_id s false Hall Hn); [|discriminate].
  rewrite (lstrip_id _ s Hf), (rstrip_id _ s Hl), Hne. reflexivity.
Qed.

Lemma slugify_plain s :
  all_chars (fun c => negb (alphanumeric c)) s = true -> slugify s = "post".
Proof.
  intros H. unfold slugify, re_sub_non_alnum, Text.strip. cbv zeta.
  rewrite (lstrip_all_gone is_hyphen); [reflexivity|].
  apply sub_runs_plain, lower_plain, H.
Qed.

Example slugify_title : slugify "  Hello, World!! 42 " = "hello-world-42".
Proof. reflexivity. Qed.

Example slugify_symbols : slugify "--- ???" = "post".
Proof. reflexivity. Qed.

(** C9 — slugify is idempotent: slugifying a slug returns it unchanged,
    [slugify (slugify s) = slugify s] for every string [s]. *)
Theorem slugify_idempotent (s : string) : slugify (slugify s) = slugify s.
Proof. apply slugify_fixes_slugs, slugify_shaped. Qed.

Example kelvin_lowers_into_ascii :
  lowers_into_ascii ("5 " +:+ kelvin_sign) = true.
Proof. reflexivity. Qed.

Example dash_stays_outside_ascii :
  lowers_into_ascii "café — bar" = false.
Proof. reflexivity. Qed.

(** C10 — for every input, [slugify] returns a non-empty string made only of
    lowercase ASCII letters, digits and hyphens, with no hyphen at either
    end and no two hyphens in a row; an input without any alphanumeric
    character (the empty string included) gives "post".  For the last
    clause the input has no ASCII letter or digit and neither of the two
    characters that become an ASCII letter in lower case. *)
Theorem slugify_path_segment (s : string) :
  slugify s <> "" /\
  (forall c, In c (list_ascii_of_string (slugify s)) ->
     Text.is_lower c = true \/ Text.is_digit c = true \/ c = "-"%char) /\
  (forall t, slugify s <> String "-" t) /\
  (forall t, slugify s <> t +:+ "-") /\
  (forall a b, slugify s <> a +:+ "--" +:+ b) /\
  ((forall c, In c (list_ascii_of_string s) -> alphanumeric c = false) ->
   lowers_into_ascii s = false ->
   slugify s = "post").
Proof.
  pose proof (slugify_shaped s) as H.
  apply slug_shaped_parts in H as (Hne & Hall & Hf & Hl & Hn).
  repeat split.
  - intros E. rewrite E in Hne. discriminate Hne.
  - intros c Hc. pose proof (all_chars_In _ _ Hall c Hc) as Hs.
    unfold slug_char, slug_alnum in Hs.
    apply orb_true_iff in Hs as [Hs|Hs].
    + apply orb_true_iff in Hs. tauto.
    + right. right. exact (hyphen_eq c Hs).
  - intros t E. rewrite E in Hf. discriminate Hf.
  - intros t E. rewrite E in Hl.
    rewrite (last_is_snoc is_hyphen t "-") in Hl. discriminate Hl.
  - intros a b E. rewrite E in Hn.
    change (a +:+ "--" +:+ b) with (a +:+ String "-" (String "-" b)) in Hn.
    rewrite no_pair_infix in Hn; [discriminate Hn | reflexivity | reflexivity].
  - intros Hs _. apply slugify_plain, In_all_chars.
    intros c Hc. rewrite (Hs c Hc). reflexivity.
Qed.

(** The last clause of [slugify_path_segment] on a title of punctuation. *)
Lemma slugify_path_segment_witness : slugify "?! --" = "post".
Proof.
  apply (slugify_path_segment "?! --"); [|reflexivity].
  intros c Hc. simpl in Hc.
  repeat (destruct Hc as [<-|Hc]; [reflexivity|]). contradiction.
Defined.

(** ** The caption *)

(** A cell either holds non-empty text or does not pass the script's test
    for text. *)
Lemma text_cell_cases (v : value) :
  (exists s, v = VStr s /\ Text.nonempty s = true /\ text_of v = Some s)
  \/ (Py.is_str v && Py.truthy v = false /\ text_of v = None).
Proof.
  destruct v as [|s| | |]; try (right; split; reflexivity).
  destruct s as [|c t]; [right; split; reflexivity|].
  left. exists (String c t). repeat split.
Qed.

Lemma bind_ext {A B : Type} (x x' : result A) (f g : A -> result B) :
  x = x' -> (forall a, f a = g a) -> bind x f = bind x' g.
Proof. intros <- H. destruct x; [apply H | reflexivity]. Qed.

(** The caption is the opening lines, the call to action, the hashtag line
    and the disclosure, in this order. *)
Lemma caption_layout (row : Series) :
  generate_caption row =
  bind (opening_lines row)
       (fun opening =>
          Ok (join nl (opening ++ call_to_action row ++ hashtag_line row
                       ++ [disclosure_line row]))).
Proof.
  unfold generate_caption, opening_lines. cbv zeta. cbn [app].
  apply bind_ext.
  - set (T := if Py.truthy (get row "title" (VStr "")) then _ else _).
    clearbody T.
    destruct (get row "benefits_pipe" (VStr "")) as [|b| | |]; cbn [text_of];
      try destruct (Text.nonempty b);
      destruct (Py.truthy (get1 row "price") && _);
      destruct (Py.truthy (get1 row "rating") && _);
      try destruct (Py.truthy (get1 row "review_count") && _);
      try destruct (Py.int (get1 row "review_count"));
      cbn [bind app]; rewrite ?app_nil_r, <- ?app_assoc; reflexivity.
  - intros lines. f_equal. f_equal.
    unfold hashtag_line, disclosure_line.
    assert (HC : (let cta :=
                    if Py.is_str (get row "cta_override" (VStr "")) &&
                       Py.truthy (get row "cta_override" (VStr ""))
                    then Py.str (get row "cta_override" (VStr ""))
                    else if Py.truthy (get row "affiliate_url" (VStr ""))
                         then "Learn more and buy here: " +:+
                              Py.str (get row "affiliate_url" (VStr ""))
                         else "" in
                  if Text.nonempty cta then lines ++ [cta] else lines)
                 = lines ++ call_to_action row).
    { unfold call_to_action. cbv zeta.
      destruct (text_cell_cases (get row "cta_override" (VStr "")))
        as [(o & -> & Ho & ->)|[-> ->]].
      - cbn [Py.is_str Py.truthy Py.str andb]. rewrite Ho. cbn iota.
        rewrite Ho. reflexivity.
      - destruct (Py.truthy (get row "affiliate_url" (VStr "")));
          [reflexivity | cbn; rewrite app_nil_r; reflexivity]. }
    cbv zeta in HC. rewrite HC. clear HC.
    generalize (call_to_action row). intros cta.
    destruct (get row "hashtags_comma" (VStr "")) as [|h| | |]; cbn [text_of];
      try destruct (Text.nonempty h); try destruct (stripped_parts "," h);
      destruct (get row "disclosure_override" (VStr "")) as [|d| | |];
      cbn [text_of Py.is_str Py.truthy Py.str andb negb default];
      try destruct (Text.nonempty d); cbn [negb default];
      rewrite ?app_nil_r, <- ?app_assoc; reflexivity.
Qed.

(** A non-empty override is the call to action, whatever the affiliate_url. *)
Lemma call_to_action_override (row : Series) (o : string) :
  get row "cta_override" (VStr "") = VStr o -> o <> "" ->
  call_to_action row = [o].
Proof.
  unfold call_to_action. intros -> Ho. destruct o; [contradiction|reflexivity].
Qed.

(** Without an override the line is synthesized from a URL text and left out
    when that text is empty or the table has no affiliate_url column. *)
Lemma call_to_action_synthesized (row : Series) (url : string) :
  text_of (get row "cta_override" (VStr "")) = None ->
  get row "affiliate_url" (VStr "") = VStr url ->
  call_to_action row =
    if Text.nonempty url then ["Learn more and buy here: " +:+ url] else [].
Proof. unfold call_to_action. intros -> ->. reflexivity. Qed.


(** C2 — a row whose title cell is empty carries the not-a-number sentinel
    into all three texts: the caption opens with "Check out nan!", the alt
    text reads "Image of nan. ..." and the metadata record holds the
    sentinel as its title.  The specification says this never happens. *)
Theorem empty_title_leaks_sentinel :
  generate_caption untitled_row =
    Ok (join nl
          ["Check out nan!"; "Learn more and buy here: http://x";
           "As an Amazon Associate I earn from qualifying purchases."])
  /\ generate_alt_text untitled_row = "Image of nan. Great tool"
  /\ exists m,
       last (fst (process_product offline untitled_row ["out"]))
       = Some (EvWrite ["out"; "p1"; "meta.json"] (Json m))
       /\ m_title m = VNaN.
Proof.
  split; [vm_compute; reflexivity|].
  split; [vm_compute; reflexivity|].
  eexists. split; vm_compute; reflexivity.
Qed.

(** C6 — with no override and an empty affiliate_url cell the caption still
    gets a synthesized call-to-action line, "Learn more and buy here: nan".
    The specification leaves the line out when there is no affiliate URL. *)
Theorem empty_url_still_linked :
  generate_caption unlinked_row =
    Ok (join nl
          ["Check out Widget!"; "Learn more and buy here: nan";
           "As an Amazon Associate I earn from qualifying purchases."]).
Proof. vm_compute. reflexivity. Qed.

(** ** The output directory *)

(** What the identifier is when its cell counts as true, and when the
    table has no identifier column or the cell is empty text. *)
Lemma product_id_resolution (row : Series) :
  (Py.truthy (get1 row "product_id") = true ->
   resolve_product_id row = Ok (Py.str (get1 row "product_id")))
  /\ (Py.truthy (get1 row "product_id") = false ->
      forall t, get row "title" (VStr "post") = VStr t ->
        resolve_product_id row = Ok (slugify t)).
Proof.
  unfold resolve_product_id. split.
  - intros ->. reflexivity.
  - intros -> t ->. reflexivity.
Qed.

(** C5 — a row with an empty identifier cell and the title "Widget" is
    written under the directory "nan", and so is a row whose identifier and
    title cells are both empty.  The specification names "widget" (the
    slugified title) for the first and "post" for the second. *)
Theorem empty_identifier_directory :
  resolve_product_id unidentified_row = Ok "nan"
  /\ hd_error (fst (process_product offline unidentified_row ["out"]))
     = Some (EvMkdir ["out"; "nan"; "images"])
  /\ slugify "Widget" = "widget"
  /\ hd_error (fst (process_product offline anonymous_row ["out"]))
     = Some (EvMkdir ["out"; "nan"; "images"]).
Proof. repeat split; vm_compute; reflexivity. Qed.

(** ** The alt text *)

(** C7, as stated, fails on a description that starts with a blank: the
    script trims the description before it cuts it at the first period, so
    one space separates the two sentences, not two. *)
Lemma alt_text_untrimmed_counterexample :
  generate_alt_text indented_row = "Image of Widget. Great tool"
  /\ alt_text_as_stated indented_row = "Image of Widget.  Great tool"
  /\ generate_alt_text indented_row <> alt_text_as_stated indented_row.
Proof.
  split; [vm_compute; reflexivity|].
  split; [vm_compute; reflexivity|].
  vm_compute. intros H. discriminate H.
Qed.

(** C7 — for every record whose title cell is judged rightly by its truth
    value (it is neither an empty cell nor a zero) the alt text is the
    override when that cell holds non-empty text; otherwise it is
    "Image of {title}." (title "product" when the title is missing or empty)
    followed by a space and the trimmed description up to its first period
    (nothing when there is no description text), the whole trimmed. *)
Theorem alt_text_composition (row : Series) :
  title_judged_by_truth row -> generate_alt_text row = alt_text_trimmed row.
Proof.
  unfold title_judged_by_truth, generate_alt_text, alt_text_trimmed,
    title_or_product, up_to_period, Py.or.
  intros Ht. cbv zeta.
  destruct (text_cell_cases (get row "alt_text_override" (VStr "")))
    as [(o & -> & Ho & ->)|[-> ->]].
  - cbn [Py.is_str Py.truthy Py.str andb]. rewrite Ho. reflexivity.
  - rewrite Ht.
    assert (Hd : match get row "short_desc" (VStr "") with
                 | VStr d =>
                     if Text.nonempty d
                     then hd "" (Text.split "." (Text.strip Text.is_space d))
                     else ""
                 | _ => ""
                 end
                 = match text_of (get row "short_desc" (VStr "")) with
                   | Some d => hd "" (Text.split "." (Text.strip Text.is_space d))
                   | None => ""
                   end).
    { destruct (get row "short_desc" (VStr "")) as [|d| | |]; cbn [text_of];
        try destruct (Text.nonempty d); reflexivity. }
    rewrite Hd. destruct (present (get row "title" (VStr ""))); reflexivity.
Qed.

(** The example of the specification: "Widget" with "Great tool. Buy now.". *)
Lemma alt_text_composition_witness :
  title_judged_by_truth alt_row
  /\ generate_alt_text alt_row = "Image of Widget. Great tool".
Proof.
  assert (Ht : title_judged_by_truth alt_row) by reflexivity.
  split; [exact Ht|].
  exact (eq_trans (alt_text_composition alt_row Ht) eq_refl).
Defined.

(** ** Image numbering *)

(** C1, as stated, fails when the first of two URLs cannot be fetched: the
    one picture that is saved is "image_2.jpg". *)
Lemma contiguous_numbering_counterexample :
  snd (download_loop first_fails ["out"; "p1"; "images"]
         (enumerate ["http://a/1.jpg"; "http://a/2.jpg"]))
  = ["image_2.jpg"]
  /\ successes first_fails ["http://a/1.jpg"; "http://a/2.jpg"] = 1
  /\ ~ contiguous_numbering.
Proof.
  split; [vm_compute; reflexivity|].
  split; [vm_compute; reflexivity|].
  intros H.
  specialize (H first_fails ["out"; "p1"; "images"]
                ["http://a/1.jpg"; "http://a/2.jpg"]).
  vm_compute in H. discriminate H.
Qed.

Section Download.

Variable env : Env.
Variable images_path : path.

Lemma beyond_ten : forall (urls : list string) k,
  10 <= k ->
  List.filter (fun item => (fst item <? 10)%nat) (enumerate_from k urls) = [].
Proof.
  unfold enumerate_from. induction urls as [|u urls IH]; intros k Hk; [reflexivity|].
  cbn [length seq combine List.filter fst].
  destruct (Nat.ltb_spec k 10) as [Hlt|_]; [lia|].
  apply IH. lia.
Qed.

Lemma download_loop_names : forall (urls : list string) k,
  snd (download_loop env images_path (enumerate_from k urls))
  = map (fun item => image_name (fst item + 1))
        (List.filter (succeeds env)
           (List.filter (fun item => (fst item <? 10)%nat) (enumerate_from k urls))).
Proof.
  unfold enumerate_from. induction urls as [|u urls IH]; intros k; [reflexivity|].
  cbn [length seq combine download_loop List.filter fst].
  destruct (Nat.leb_spec 10 k) as [Hk|Hk].
  - destruct (Nat.ltb_spec k 10) as [Hlt|_]; [lia|].
    pose proof (beyond_ten urls (S k)) as Hb. unfold enumerate_from in Hb.
    rewrite Hb; [reflexivity | lia].
  - destruct (Nat.ltb_spec k 10) as [_|Hge]; [|lia].
    specialize (IH (S k)).
    destruct (download_loop env images_path (combine (seq (S k) (length urls)) urls))
      as [saves names].
    cbn [snd] in IH. cbn [List.filter]. unfold succeeds at 1. cbn [fst snd].
    destruct (attempt env k u); cbn [snd map fst]; rewrite IH; reflexivity.
Qed.

(** Every operation of the loop saves one picture, under the name that
    goes into [downloaded_files]. *)
Lemma download_loop_saves : forall items,
  Forall2 (fun e n => exists img, e = EvWrite (images_path // n) (Jpeg 90 img))
          (fst (download_loop env images_path items))
          (snd (download_loop env images_path items)).
Proof.
  induction items as [|[i url] rest IH]; cbn [download_loop]; [constructor|].
  destruct (10 <=? i)%nat; [constructor|].
  destruct (download_loop env images_path rest) as [saves names].
  cbn [fst snd] in IH.
  destruct (attempt env i url) as [img|]; cbn [fst snd]; [|exact IH].
  constructor; [exists img; reflexivity | exact IH].
Qed.

(** A failure does not end the loop: a later URL that can be fetched and
    decoded is saved. *)
Lemma download_loop_keeps_going : forall (urls : list string) k i url img,
  urls !! i = Some url ->
  k + i < 10 ->
  attempt env (k + i) url = Some img ->
  In (EvWrite (images_path // image_name (k + i + 1)) (Jpeg 90 img))
     (fst (download_loop env images_path (enumerate_from k urls))).
Proof.
  unfold enumerate_from. induction urls as [|u urls IH]; intros k i url img Hn Hlt Ha;
    [destruct i; discriminate Hn|].
  cbn [length seq combine download_loop].
  destruct (Nat.leb_spec 10 k) as [Hk|_]; [lia|].
  destruct i as [|i].
  - injection Hn as ->. rewrite Nat.add_0_r in Ha |- *. rewrite Ha.
    destruct (download_loop env images_path _) as [saves names].
    left. reflexivity.
  - cbn in Hn. specialize (IH (S k) i url img Hn).
    replace (S k + i) with (k + S i) in IH by lia.
    specialize (IH Hlt Ha).
    destruct (download_loop env images_path _) as [saves names].
    cbn [fst] in IH |- *.
    destruct (attempt env k u); [right|]; exact IH.
Qed.

Lemma download_loop_operations : forall (urls : list string) k,
  fst (download_loop env images_path (enumerate_from k urls))
  = flat_map (save_of env images_path)
      (List.filter (fun item => (fst item <? 10)%nat) (enumerate_from k urls)).
Proof.
  unfold enumerate_from. induction urls as [|u urls IH]; intros k; [reflexivity|].
  cbn [length seq combine download_loop List.filter fst].
  destruct (Nat.leb_spec 10 k) as [Hk|Hk].
  - destruct (Nat.ltb_spec k 10) as [Hlt|_]; [lia|].
    pose proof (beyond_ten urls (S k)) as Hb. unfold enumerate_from in Hb.
    rewrite Hb; [reflexivity | lia].
  - destruct (Nat.ltb_spec k 10) as [_|Hge]; [|lia].
    specialize (IH (S k)).
    destruct (download_loop env images_path (combine (seq (S k) (length urls)) urls))
      as [saves names].
    cbn [fst] in IH. cbn [flat_map]. unfold save_of at 1. cbn [fst snd].
    destruct (attempt env k u); cbn [fst app]; rewrite IH; reflexivity.
Qed.

End Download.

(** ** Paths and files *)

Lemma split_last_child (d : path) (n : string) : split_last (d // n) = Some (d, n).
Proof.
  unfold child. induction d as [|s d IH]; [reflexivity|].
  cbn [app split_last]. rewrite IH. reflexivity.
Qed.

Lemma child_inj (d : path) (a b : string) : d // a = d // b -> a = b.
Proof. unfold child. intros H. apply app_inj_tail in H. tauto. Qed.

Lemma child_not_self (d : path) (a : string) : d // a <> d.
Proof.
  unfold child. intros H. apply (f_equal (@length string)) in H.
  rewrite length_app in H. cbn in H. lia.
Qed.

Lemma grandchild_not_child (d : path) (a b c : string) : d // a // b <> d // c.
Proof.
  unfold child. intros H. apply (f_equal (@length string)) in H.
  rewrite !length_app in H. cbn in H. lia.
Qed.

Lemma written_under_app (d : path) (t1 t2 : list event) :
  written_under d (t1 ++ t2) = written_under d t1 ++ written_under d t2.
Proof.
  induction t1 as [|[p|p c] t1 IH]; cbn [app written_under];
    [reflexivity | exact IH |].
  destruct (split_last p) as [[d' n]|]; [|exact IH].
  destruct (decide (d' = d)); [|exact IH].
  rewrite IH. reflexivity.
Qed.

Lemma written_under_child (d d' : path) (n : string) (c : file_content)
    (rest : list event) :
  written_under d (EvWrite (d' // n) c :: rest)
  = if decide (d' = d) then n :: written_under d rest else written_under d rest.
Proof. cbn [written_under]. rewrite split_last_child. reflexivity. Qed.

Lemma written_under_saves (d : path) (saves : list event) (names : list string) :
  Forall2 (fun e n => exists img, e = EvWrite (d // n) (Jpeg 90 img)) saves names ->
  written_under d saves = names.
Proof.
  induction 1 as [|e n saves names [img ->] _ IH]; [reflexivity|].
  rewrite written_under_child, IH. destruct (decide (d = d)); congruence.
Qed.

(** After the loop every name of [downloaded_files] is a picture on disk. *)
Lemma fs_after_saves (d : path) (saves : list event) (names : list string) :
  Forall2 (fun e n => exists img, e = EvWrite (d // n) (Jpeg 90 img)) saves names ->
  forall (fs : FS) (n : string),
    In n names \/ (exists img, fs !! (d // n) = Some (Jpeg 90 img)) ->
    exists img, fs_after fs saves !! (d // n) = Some (Jpeg 90 img).
Proof.
  induction 1 as [|e n0 saves names [img0 ->] _ IH]; intros fs n Hn.
  - destruct Hn as [[]|Hn]. exact Hn.
  - cbn [fs_after fold_left apply_event]. apply IH.
    destruct (decide (n = n0)) as [->|Hne].
    + right. exists img0. apply lookup_insert_eq.
    + destruct Hn as [[Hn|Hn]|[img Hn]]; [congruence | now left |].
      right. exists img. rewrite lookup_insert_ne; [exact Hn|].
      intros E. apply child_inj in E. congruence.
Qed.

(** ** Image numbering, continued *)

(** C1 — the saved pictures are named after the positions of their URLs:
    the loop writes, under the images directory and in the order of the
    URLs, one file "image_{i+1}.jpg" for exactly those of the first ten URLs
    (position [i] counted from 0) whose fetch and decoding succeed, and
    nothing else; these names, K of them, are [downloaded_files].  A URL
    that fails leaves its number unused. *)
Theorem image_names_follow_positions
    (env : Env) (images_path : path) (urls : list string) :
  let saves := fst (download_loop env images_path (enumerate urls)) in
  let names := snd (download_loop env images_path (enumerate urls)) in
  let expected := map (fun item => image_name (fst item + 1))
                      (List.filter (succeeds env) (attempted urls)) in
  saves = flat_map (save_of env images_path) (attempted urls)
  /\ written_under images_path saves = expected
  /\ names = expected
  /\ length names = successes env urls.
Proof.
  cbv zeta.
  pose proof (download_loop_names env images_path urls 0) as Hnames.
  pose proof (download_loop_operations env images_path urls 0) as Hops.
  pose proof (download_loop_saves env images_path (enumerate urls)) as Hsaves.
  split; [exact Hops|]. split; [|split; [exact Hnames|]].
  - rewrite (written_under_saves images_path _ _ Hsaves). exact Hnames.
  - unfold enumerate. rewrite Hnames, length_map. reflexivity.
Qed.

(** ** The bundle of one row *)

(** C3 — when a row has been processed, the [images] array of its meta.json
    is exactly the list of file names written to the row's images/ directory
    during the run: it holds the names of the URLs that could be fetched and
    decoded and no others, and each of its names is a picture on disk. *)
Theorem meta_images_are_the_saved_files
    (env : Env) (row : Series) (out_dir : path) (fs : FS)
    (product_id : string) (trace : list event) :
  resolve_product_id row = Ok product_id ->
  process_product env row out_dir = (trace, Ok tt) ->
  let prod_path := out_dir // slugify product_id in
  let images_path := prod_path // "images" in
  exists m : meta,
    fs_after fs trace !! (prod_path // "meta.json") = Some (Json m)
    /\ m_images m = written_under images_path trace
    /\ m_images m = map (fun item => image_name (fst item + 1))
                        (List.filter (succeeds env) (attempted (image_urls row)))
    /\ forall name, In name (m_images m) ->
         exists img,
           fs_after fs trace !! (images_path // name) = Some (Jpeg 90 img).
Proof.
  intros Hid Hrun. cbv zeta. unfold process_product in Hrun.
  rewrite Hid in Hrun.
  set (prod_path := out_dir // slugify product_id) in *.
  set (images_path := prod_path // "images") in *.
  pose proof (download_loop_saves env images_path (enumerate (image_urls row)))
    as Hsaves.
  pose proof (download_loop_names env images_path (image_urls row) 0) as Hnames.
  fold (enumerate (image_urls row)) in Hnames.
  destruct (download_loop env images_path (enumerate (image_urls row)))
    as [saves names].
  cbn [fst snd] in Hsaves, Hnames.
  destruct (generate_caption row) as [caption|e]; [|discriminate Hrun].
  injection Hrun as <-.
  eexists. split; [|split; [|split]].
  - unfold fs_after. cbn [fold_left apply_event].
    rewrite fold_left_app. cbn [fold_left apply_event].
    apply lookup_insert_eq.
  - cbn [m_images written_under]. rewrite written_under_app.
    cbn [written_under].
    rewrite (written_under_saves images_path saves names Hsaves).
    rewrite !split_last_child.
    destruct (decide (prod_path = images_path)) as [E|_].
    + symmetry in E. apply child_not_self in E. contradiction.
    + rewrite app_nil_r. reflexivity.
  - exact Hnames.
  - cbn [m_images]. intros name Hin.
    destruct (fs_after_saves images_path saves names Hsaves fs name (or_introl Hin))
      as [img Himg].
    exists img.
    unfold fs_after in Himg |- *. cbn [fold_left apply_event].
    rewrite fold_left_app. cbn [fold_left apply_event].
    rewrite !lookup_insert_ne; [exact Himg | | |];
      intros E; symmetry in E; exact (grandchild_not_child _ _ _ _ E).
Qed.

(** A run on which the first of two URLs times out. *)
Lemma meta_images_are_the_saved_files_witness :
  exists m : meta,
    fs_after ∅ (fst (process_product first_fails two_urls_row ["out"]))
      !! ["out"; "p1"; "meta.json"] = Some (Json m)
    /\ m_images m = ["image_2.jpg"].
Proof.
  assert (Hid : resolve_product_id two_urls_row = Ok "p1")
    by (vm_compute; reflexivity).
  assert (Hrun : process_product first_fails two_urls_row ["out"]
                 = (fst (process_product first_fails two_urls_row ["out"]), Ok tt))
    by (vm_compute; reflexivity).
  destruct (meta_images_are_the_saved_files
              first_fails two_urls_row ["out"] ∅ "p1" _ Hid Hrun)
    as (m & Hm & _ & Hnames & _).
  exists m. split; [exact Hm | exact Hnames].
Defined.

(** Whether the call returns or raises does not depend on the network. *)
Lemma outcome_independent_of_network (env env' : Env) (row : Series)
    (out_dir : path) :
  snd (process_product env row out_dir) = snd (process_product env' row out_dir).
Proof.
  unfold process_product.
  destruct (resolve_product_id row) as [product_id|e]; [|reflexivity].
  destruct (download_loop env _ _) as [saves names].
  destruct (download_loop env' _ _) as [saves' names'].
  destruct (generate_caption row); reflexivity.
Qed.

(** C8 — a picture that cannot be fetched or decoded is skipped and nothing
    else is lost: whatever the network and the codec do, the row's
    caption.txt, alt_text.txt and meta.json are written (whenever the row
    itself has an identifier and a caption to write), and every one of the
    first ten URLs that can be fetched and decoded is saved, also after
    earlier ones failed. *)
Theorem image_failures_do_not_abort
    (env : Env) (row : Series) (out_dir : path) (fs : FS)
    (product_id caption : string) :
  resolve_product_id row = Ok product_id ->
  generate_caption row = Ok caption ->
  let prod_path := out_dir // slugify product_id in
  exists (trace : list event) (m : meta),
    process_product env row out_dir = (trace, Ok tt)
    /\ fs_after fs trace !! (prod_path // "caption.txt") = Some (Text_ caption)
    /\ fs_after fs trace !! (prod_path // "alt_text.txt")
       = Some (Text_ (generate_alt_text row))
    /\ fs_after fs trace !! (prod_path // "meta.json") = Some (Json m)
    /\ forall i url img,
         image_urls row !! i = Some url ->
         i < 10 ->
         attempt env i url = Some img ->
         In (EvWrite (prod_path // "images" // image_name (i + 1)) (Jpeg 90 img))
            trace.
Proof.
  intros Hid Hcap. cbv zeta. unfold process_product. rewrite Hid, Hcap.
  set (prod_path := out_dir // slugify product_id).
  set (images_path := prod_path // "images").
  pose proof (download_loop_keeps_going env images_path (image_urls row) 0)
    as Hkeep.
  fold (enumerate (image_urls row)) in Hkeep.
  destruct (download_loop env images_path (enumerate (image_urls row)))
    as [saves names].
  cbn [fst] in Hkeep.
  assert (Hne : forall a b : string, a <> b -> prod_path // a <> prod_path // b).
  { intros a b Hab E. apply child_inj in E. contradiction. }
  eexists. eexists. split; [reflexivity|].
  unfold fs_after. rewrite fold_left_app. cbn [fold_left apply_event].
  split; [|split; [|split]].
  - rewrite !lookup_insert_ne by (apply Hne; discriminate).
    apply lookup_insert_eq.
  - rewrite lookup_insert_ne by (apply Hne; discriminate).
    apply lookup_insert_eq.
  - apply lookup_insert_eq.
  - intros i url img Hurl Hlt Hatt. apply in_or_app. left. right.
    exact (Hkeep i url img Hurl Hlt Hatt).
Qed.

(** A row processed while nothing can be fetched at all. *)
Lemma image_failures_do_not_abort_witness :
  exists trace : list event,
    process_product offline two_urls_row ["out"] = (trace, Ok tt)
    /\ fs_after ∅ trace !! ["out"; "p1"; "caption.txt"]
       = Some (Text_ (join nl ["Check out Widget!"; default_disclosure])).
Proof.
  assert (Hid : resolve_product_id two_urls_row = Ok "p1")
    by (vm_compute; reflexivity).
  assert (Hcap : generate_caption two_urls_row
                 = Ok (join nl ["Check out Widget!"; default_disclosure]))
    by (vm_compute; reflexivity).
  destruct (image_failures_do_not_abort
              offline two_urls_row ["out"] ∅ "p1" _ Hid Hcap)
    as (trace & m & Hrun & Hc & _).
  exists trace. split; [exact Hrun | exact Hc].
Defined.

(* ====================================================================== *)
(** * Further properties *)

(** ** More on strings *)

Lemma str_app_assoc a b c : (a +:+ b) +:+ c = a +:+ (b +:+ c).
Proof.
  induction a as [|x a IH]; [reflexivity|].
  rewrite !app_cons, IH. reflexivity.
Qed.

Lemma str_app_nil_r a : a +:+ "" = a.
Proof.
  induction a as [|x a IH]; [reflexivity|]. rewrite app_cons, IH. reflexivity.
Qed.

Lemma str_app_inv_tail a b s : a +:+ s = b +:+ s -> a = b.
Proof.
  intros H.
  assert (Hl : forall x y, list_ascii_of_string (x +:+ y)
                           = list_ascii_of_string x ++ list_ascii_of_string y).
  { induction x as [|c x IH]; intros y; [reflexivity|].
    rewrite app_cons. cbn. rewrite IH. reflexivity. }
  apply (f_equal list_ascii_of_string) in H. rewrite !Hl in H.
  apply app_inv_tail in H.
  rewrite <- (string_of_list_ascii_of_string a),
          <- (string_of_list_ascii_of_string b), H.
  reflexivity.
Qed.

Lemma lower_app a b : Text.lower (a +:+ b) = Text.lower a +:+ Text.lower b.
Proof.
  induction a as [|x a IH]; [reflexivity|].
  rewrite app_cons. cbn [Text.lower]. rewrite IH. reflexivity.
Qed.

Lemma lower_char_idem c : Text.lower_char (Text.lower_char c) = Text.lower_char c.
Proof.
  unfold Text.lower_char at 2 3. destruct (Text.is_upper c) eqn:Hu.
  - unfold Text.lower_char.
    assert (Hn : Text.is_upper (ascii_of_nat (Text.code c + 32)) = false);
      [|rewrite Hn; reflexivity].
    apply between_spec in Hu.
    destruct (Text.is_upper _) eqn:E; [|reflexivity].
    apply between_spec in E. unfold Text.code in E.
    rewrite nat_ascii_embedding in E; unfold Text.code in Hu; lia.
  - unfold Text.lower_char. rewrite Hu. reflexivity.
Qed.

Lemma lower_idem s : Text.lower (Text.lower s) = Text.lower s.
Proof.
  induction s as [|c t IH]; [reflexivity|].
  cbn [Text.lower]. rewrite lower_char_idem, IH. reflexivity.
Qed.

Lemma rstrip_all_gone p : forall s, all_chars p s = true -> Text.rstrip p s = "".
Proof.
  induction s as [|c t IH]; [reflexivity|].
  cbn [all_chars]. intros [Hc Ht]%andb_true_iff.
  rewrite rstrip_cons, (IH Ht), Hc. reflexivity.
Qed.

Lemma rstrip_empty_all p : forall s, Text.rstrip p s = "" -> all_chars p s = true.
Proof.
  induction s as [|c t IH]; [reflexivity|].
  rewrite rstrip_cons. destruct (Text.rstrip p t) eqn:E; [|discriminate].
  destruct (p c) eqn:Hc; [|discriminate]. intros _.
  cbn [all_chars]. rewrite Hc, IH; reflexivity.
Qed.

Lemma rstrip_app_gone p h : all_chars p h = true ->
  forall s, Text.rstrip p (s +:+ h) = Text.rstrip p s.
Proof.
  intros Hh. induction s as [|c t IH].
  - rewrite app_empty. apply rstrip_all_gone, Hh.
  - rewrite app_cons, !rstrip_cons, IH. reflexivity.
Qed.

Lemma lstrip_app_gone p h : all_chars p h = true ->
  forall s, Text.rstrip p (Text.lstrip p (s +:+ h)) = Text.rstrip p (Text.lstrip p s).
Proof.
  intros Hh. induction s as [|c t IH].
  - rewrite app_empty, (lstrip_all_gone p h Hh). reflexivity.
  - rewrite app_cons. cbn [Text.lstrip]. destruct (p c); [exact IH|].
    rewrite <- app_cons. apply rstrip_app_gone, Hh.
Qed.

(** ** More on slugify *)

Lemma sub_runs_flag : forall s b,
  Text.lstrip is_hyphen (sub_runs b s) = Text.lstrip is_hyphen (sub_runs false s).
Proof.
  intros [|c t] [|]; try reflexivity.
  cbn [sub_runs]. destruct (slug_alnum c); reflexivity.
Qed.

Lemma sub_runs_skip : forall a s b,
  all_chars (fun c => negb (slug_alnum c)) a = true ->
  Text.lstrip is_hyphen (sub_runs b (a +:+ s))
  = Text.lstrip is_hyphen (sub_runs false s).
Proof.
  induction a as [|c a IH]; intros s b Ha.
  - rewrite app_empty. apply sub_runs_flag.
  - cbn [all_chars] in Ha. apply andb_true_iff in Ha as [Hc Ha].
    apply negb_true_iff in Hc. rewrite app_cons. cbn [sub_runs]. rewrite Hc.
    destruct b; [exact (IH s true Ha)|].
    cbn [Text.lstrip]. change (is_hyphen hyphen) with true. cbn iota.
    exact (IH s true Ha).
Qed.

Lemma sub_runs_trail : forall s a b,
  all_chars (fun c => negb (slug_alnum c)) a = true ->
  exists h, all_chars is_hyphen h = true
            /\ sub_runs b (s +:+ a) = sub_runs b s +:+ h.
Proof.
  induction s as [|c t IH]; intros a b Ha.
  - exists (sub_runs b a). split; [apply sub_runs_plain, Ha | reflexivity].
  - rewrite app_cons. cbn [sub_runs]. destruct (slug_alnum c).
    + destruct (IH a false Ha) as (h & Hh & ->). exists h. split; [exact Hh|].
      reflexivity.
    + destruct (IH a true Ha) as (h & Hh & ->). exists h. split; [exact Hh|].
      destruct b; reflexivity.
Qed.

Lemma stripped_runs_filter s :
  filter_chars slug_alnum (Text.strip is_hyphen (re_sub_non_alnum s))
  = filter_chars slug_alnum s.
Proof.
  assert (Hsub : forall t b, filter_chars slug_alnum (sub_runs b t)
                             = filter_chars slug_alnum t).
  { induction t as [|c t IH]; intros b; [reflexivity|].
    cbn [sub_runs filter_chars]. destruct (slug_alnum c) eqn:Hc.
    - cbn [filter_chars]. rewrite Hc, IH. reflexivity.
    - destruct b; [apply IH|]. cbn [filter_chars].
      change (slug_alnum hyphen) with false. cbn iota. apply IH. }
  assert (Hl : forall t, filter_chars slug_alnum (Text.lstrip is_hyphen t)
                         = filter_chars slug_alnum t).
  { induction t as [|c t IH]; [reflexivity|].
    cbn [Text.lstrip]. destruct (is_hyphen c) eqn:Hc; [|reflexivity].
    rewrite IH. cbn [filter_chars].
    destruct (slug_alnum c) eqn:Ha; [|reflexivity].
    rewrite (alnum_not_hyphen c Ha) in Hc. discriminate Hc. }
  assert (Hr : forall t, filter_chars slug_alnum (Text.rstrip is_hyphen t)
                         = filter_chars slug_alnum t).
  { induction t as [|c t IH]; [reflexivity|].
    rewrite rstrip_cons. cbn [filter_chars]. rewrite <- IH.
    destruct (Text.rstrip is_hyphen t) as [|d r]; [|reflexivity].
    destruct (is_hyphen c) eqn:Hc.
    - destruct (slug_alnum c) eqn:Ha; [|reflexivity].
      rewrite (alnum_not_hyphen c Ha) in Hc. discriminate Hc.
    - reflexivity. }
  unfold Text.strip, re_sub_non_alnum. rewrite Hr, Hl, Hsub. reflexivity.
Qed.

(** X1 — an identifier and its lower-cased form get the same slug. *)
Theorem slugify_ignores_case (s : string) : slugify (Text.lower s) = slugify s.
Proof. unfold slugify. rewrite lower_idem. reflexivity. Qed.

(** X2 — the strings [slugify] returns unchanged are exactly the slugs:
    non-empty, made of lowercase letters, digits and hyphens, with no hyphen
    at either end and no two hyphens in a row. *)
Theorem slugify_fixed_points (s : string) :
  slugify s = s <-> slug_shaped s = true.
Proof.
  split.
  - intros <-. apply slugify_shaped.
  - apply slugify_fixes_slugs.
Qed.

(** X3 — [slugify] keeps the letters and digits of its input, lower-cased
    and in order; it only adds and removes hyphens, and gives "post" when
    there is no letter or digit to keep.  The input has neither of the two
    characters outside ASCII that become an ASCII letter in lower case. *)
Theorem slugify_keeps_letters_and_digits (s : string) :
  lowers_into_ascii s = false ->
  filter_chars slug_alnum (slugify s) =
  if Text.nonempty (filter_chars slug_alnum (Text.lower s))
  then filter_chars slug_alnum (Text.lower s)
  else "post".
Proof.
  intros _.
  pose proof (stripped_runs_filter (Text.lower s)) as Hf.
  pose proof (stripped_runs_shape s) as (Hall & Hfirst & _). cbv zeta in *.
  unfold slugify. cbv zeta.
  set (v := Text.strip is_hyphen (re_sub_non_alnum (Text.lower s))) in *.
  rewrite <- Hf. destruct v as [|c v]; [reflexivity|].
  cbn [Text.nonempty first_is all_chars filter_chars] in *.
  apply andb_true_iff in Hall as [Hc _]. unfold slug_char in Hc.
  rewrite Hfirst, orb_false_r in Hc. rewrite Hc. reflexivity.
Qed.

Lemma slugify_keeps_letters_and_digits_witness :
  filter_chars slug_alnum (slugify "Desk Lamp (2-Pack)") = "desklamp2pack".
Proof.
  exact (eq_trans
           (slugify_keeps_letters_and_digits "Desk Lamp (2-Pack)" eq_refl)
           eq_refl).
Defined.

(** X4 — the slug of an ASCII text is never longer than the text, "post"
    apart. *)
Theorem slugify_length (s : string) :
  all_chars is_ascii s = true ->
  String.length (slugify s) <= Nat.max 4 (String.length s).
Proof.
  intros _.
  assert (Hlow : forall t, String.length (Text.lower t) = String.length t).
  { induction t as [|c t IH]; [reflexivity|]. cbn. rewrite IH. reflexivity. }
  assert (Hsub : forall t b, String.length (sub_runs b t) <= String.length t).
  { induction t as [|c t IH]; intros b; [reflexivity|].
    cbn [sub_runs]. destruct (slug_alnum c); [|destruct b]; cbn [String.length].
    - specialize (IH false). lia.
    - specialize (IH true). lia.
    - specialize (IH true). lia. }
  assert (Hl : forall t, String.length (Text.lstrip is_hyphen t) <= String.length t).
  { induction t as [|c t IH]; [reflexivity|].
    cbn [Text.lstrip]. destruct (is_hyphen c); cbn [String.length]; lia. }
  assert (Hr : forall t, String.length (Text.rstrip is_hyphen t) <= String.length t).
  { induction t as [|c t IH]; [reflexivity|].
    rewrite rstrip_cons. destruct (Text.rstrip is_hyphen t);
      [destruct (is_hyphen c)|]; cbn [String.length] in *; lia. }
  unfold slugify, Text.strip, re_sub_non_alnum. cbv zeta.
  destruct (Text.nonempty _); [|cbn; lia].
  specialize (Hr (Text.lstrip is_hyphen (sub_runs false (Text.lower s)))).
  specialize (Hl (sub_runs false (Text.lower s))).
  specialize (Hsub (Text.lower s) false). rewrite Hlow in Hsub. lia.
Qed.

Lemma slugify_length_witness :
  String.length (slugify "Desk  Lamp!") <= Nat.max 4 (String.length "Desk  Lamp!").
Proof. apply slugify_length. reflexivity. Defined.

Lemma ascii_punctuation_plain a :
  all_chars ascii_punctuation a = true -> all_chars punctuation a = true.
Proof.
  induction a as [|c a IH]; [reflexivity|].
  cbn [all_chars]. unfold ascii_punctuation at 1.
  intros [[_ Hc]%andb_true_iff Ha]%andb_true_iff. rewrite Hc. exact (IH Ha).
Qed.

(** X5 — ASCII punctuation and blanks around a text do not change its slug. *)
Theorem slugify_ignores_surroundings (a s b : string) :
  all_chars ascii_punctuation a = true ->
  all_chars ascii_punctuation b = true ->
  slugify (a +:+ s +:+ b) = slugify s.
Proof.
  intros Ha Hb. apply ascii_punctuation_plain, lower_plain in Ha, Hb.
  unfold slugify, Text.strip, re_sub_non_alnum. cbv zeta.
  rewrite !lower_app.
  assert (E : Text.rstrip is_hyphen
                (Text.lstrip is_hyphen
                   (sub_runs false (Text.lower a +:+ Text.lower s +:+ Text.lower b)))
              = Text.rstrip is_hyphen
                  (Text.lstrip is_hyphen (sub_runs false (Text.lower s))));
    [|rewrite E; reflexivity].
  rewrite (sub_runs_skip (Text.lower a) _ false Ha).
  destruct (sub_runs_trail (Text.lower s) (Text.lower b) false Hb) as (h & Hh & ->).
  apply lstrip_app_gone, Hh.
Qed.

Lemma slugify_ignores_surroundings_witness :
  slugify (" ((" +:+ "Desk Lamp" +:+ ")) !") = slugify "Desk Lamp".
Proof.
  apply (slugify_ignores_surroundings " ((" "Desk Lamp" ")) !"); reflexivity.
Defined.

(** ** Lists of trimmed parts *)

Lemma split_free (sep : ascii) : forall s,
  Forall (fun x => all_chars (fun c => negb (Ascii.eqb c sep)) x = true)
         (Text.split sep s).
Proof.
  induction s as [|c t IH]; [repeat constructor|].
  cbn [Text.split]. destruct (Ascii.eqb c sep) eqn:E.
  - constructor; [reflexivity | exact IH].
  - destruct (Text.split sep t) as [|h r]; [repeat constructor; cbn; now rewrite E|].
    inversion IH as [|? ? Hh Hr]; subst.
    constructor; [|exact Hr]. cbn [all_chars]. rewrite E, Hh. reflexivity.
Qed.

Lemma nonempty_spec s : Text.nonempty s = true <-> s <> "".
Proof. destruct s; cbn; split; congruence. Qed.

(** X6 — the parts the script takes from a delimited cell (benefits,
    hashtags, image URLs) are never empty, carry no white space at either
    end and do not contain the delimiter. *)
Theorem stripped_parts_clean (sep : ascii) (s : string) :
  Forall (fun x => x <> ""
                   /\ first_is Text.is_space x = false
                   /\ last_is Text.is_space x = false
                   /\ all_chars (fun c => negb (Ascii.eqb c sep)) x = true)
         (stripped_parts sep s).
Proof.
  unfold stripped_parts. pose proof (split_free sep s) as H.
  induction H as [|x l Hx _ IH]; [constructor|].
  cbn [map List.filter].
  destruct (Text.nonempty (Text.strip Text.is_space x)) eqn:E; [|exact IH].
  constructor; [|exact IH]. unfold Text.strip in *.
  split; [apply nonempty_spec, E|]. split; [|split].
  - destruct (first_is Text.is_space (Text.rstrip _ _)) eqn:F; [|reflexivity].
    apply rstrip_first in F. rewrite lstrip_first in F. discriminate F.
  - apply rstrip_last.
  - apply rstrip_all, lstrip_all, Hx.
Qed.

(** ** More on the caption *)

Lemma join_snoc (l : list string) (d : string) :
  join nl (l ++ [d]) =
  match l with
  | [] => d
  | _ => join nl l +:+ nl +:+ d
  end.
Proof.
  unfold join. induction l as [|x l IH]; [reflexivity|].
  destruct l as [|y l]; [reflexivity|].
  change (String.concat nl ((x :: y :: l) ++ [d]))
    with (x +:+ nl +:+ String.concat nl ((y :: l) ++ [d])).
  rewrite IH.
  change (String.concat nl (x :: y :: l))
    with (x +:+ nl +:+ String.concat nl (y :: l)).
  rewrite !str_app_assoc. reflexivity.
Qed.

(** X7 — every caption ends with the disclosure on a line of its own: the
    override when that cell holds non-empty text, the Amazon sentence
    otherwise. *)
Theorem caption_ends_with_disclosure (row : Series) (caption : string) :
  generate_caption row = Ok caption ->
  caption = disclosure_line row
  \/ exists body, caption = body +:+ nl +:+ disclosure_line row.
Proof.
  rewrite caption_layout.
  destruct (opening_lines row) as [opening|e]; cbn [bind]; [|discriminate].
  intros [= <-]. rewrite !app_assoc, join_snoc.
  destruct ((opening ++ call_to_action row) ++ hashtag_line row) as [|x l];
    [left; reflexivity | right; eexists; reflexivity].
Qed.

Lemma caption_ends_with_disclosure_witness :
  exists body,
    generate_caption widget_row
    = Ok (body +:+ nl +:+
          "As an Amazon Associate I earn from qualifying purchases.").
Proof.
  assert (H : generate_caption widget_row = Ok _) by (vm_compute; reflexivity).
  destruct (caption_ends_with_disclosure widget_row _ H) as [E|[body E]].
  - vm_compute in E. discriminate E.
  - exists body. rewrite H. f_equal. exact E.
Defined.

(** X8 — for a row whose review count, when it is a text, is an ASCII text:
    composing the caption raises in one situation only, the row has a rating
    and its review count is a text that [int] cannot read.  The exception is
    then a ValueError. *)
Theorem caption_raises_iff (row : Series) (e : exn) :
  (forall s, get1 row "review_count" = VStr s -> all_chars is_ascii s = true) ->
  (generate_caption row = Raise e <->
   e = ValueError
   /\ Py.truthy (get1 row "rating") && negb (Py.isna (get1 row "rating")) = true
   /\ exists s, get1 row "review_count" = VStr s
                /\ s <> "" /\ Py.int_of_text s = None).
Proof.
  intros _.
  rewrite caption_layout. unfold opening_lines. cbv zeta.
  destruct (Py.truthy (get1 row "rating") && _); cbn [bind].
  - destruct (get1 row "review_count") as [|s|z|sg w f|] eqn:Hrc;
      cbn [Py.truthy Py.isna Py.int andb negb bind].
    + split; [discriminate | intros (_ & _ & s & [=] & _)].
    + destruct s as [|c s]; cbn [Text.nonempty bind].
      * split; [discriminate | intros (_ & _ & s' & [= <-] & Hs & _); congruence].
      * destruct (Py.int_of_text (String c s)) eqn:Hi; cbn [bind].
        -- split; [discriminate | intros (_ & _ & s' & [= <-] & _ & Hn)].
           congruence.
        -- split.
           ++ intros [= <-]. repeat split. exists (String c s).
              repeat split; [discriminate | exact Hi].
           ++ intros (-> & _). reflexivity.
    + destruct (negb (z =? 0)%Z); cbn [bind];
        (split; [discriminate | intros (_ & _ & s & [=] & _)]).
    + destruct (negb (w =? 0)%N || Py.frac_nonzero f); cbn [bind];
        (split; [discriminate | intros (_ & _ & s & [=] & _)]).
    + split; [discriminate | intros (_ & _ & s & [=] & _)].
  - split; [discriminate | intros (_ & [=] & _)].
Qed.

Lemma caption_raises_iff_witness :
  generate_caption wordy_row = Raise ValueError.
Proof.
  apply (caption_raises_iff wordy_row ValueError).
  - intros s Hs. vm_compute in Hs. injection Hs as <-. reflexivity.
  - split; [reflexivity|]. split; [reflexivity|].
    exists "many". split; [vm_compute; reflexivity|].
    split; [discriminate | vm_compute; reflexivity].
Defined.

Lemma get_unfilled (row : Series) (key : string) (d : value) :
  unfilled row key -> get row key d = d \/ get row key d = VNaN.
Proof. unfold unfilled, get. intros [->| ->]; [left|right]; reflexivity. Qed.

(** X9 — a row that has a title and nothing else (every other cell empty or
    its column missing, no affiliate_url column) gets a caption of exactly
    two lines: the title line and the default disclosure. *)
Theorem caption_of_title_only (row : Series) (t : string) :
  get row "title" (VStr "") = VStr t ->
  t <> "" ->
  (forall key, key <> "title" -> unfilled row key) ->
  row !! "affiliate_url" = None ->
  generate_caption row
  = Ok ("Check out " +:+ t +:+ "!" +:+ nl +:+ default_disclosure).
Proof.
  intros Ht Hne Hrest Hurl.
  assert (Hget : forall key d, key <> "title" ->
            get row key d = d \/ get row key d = VNaN).
  { intros key d Hk. apply get_unfilled, Hrest, Hk. }
  rewrite caption_layout.
  unfold opening_lines, call_to_action, hashtag_line, disclosure_line, get1.
  cbv zeta. rewrite Ht. apply nonempty_spec in Hne.
  cbn [Py.truthy Py.str]. rewrite Hne.
  assert (Hu : get row "affiliate_url" (VStr "") = VStr "")
    by (unfold get; rewrite Hurl; reflexivity).
  rewrite Hu.
  destruct (Hget "benefits_pipe" (VStr "")) as [-> | ->]; [discriminate|..];
  destruct (Hget "price" VNone) as [-> | ->]; try discriminate;
  destruct (Hget "rating" VNone) as [-> | ->]; try discriminate;
  destruct (Hget "cta_override" (VStr "")) as [-> | ->]; try discriminate;
  destruct (Hget "hashtags_comma" (VStr "")) as [-> | ->]; try discriminate;
  destruct (Hget "disclosure_override" (VStr "")) as [-> | ->]; try discriminate;
  cbn; rewrite !str_app_assoc; reflexivity.
Qed.

Lemma caption_of_title_only_witness :
  generate_caption (row_of [("title", VStr "Widget"); ("price", VNaN)])
  = Ok ("Check out " +:+ "Widget" +:+ "!" +:+ nl +:+ default_disclosure).
Proof.
  apply caption_of_title_only.
  - reflexivity.
  - discriminate.
  - intros key Hk. unfold unfilled, row_of. cbn [list_to_map foldr uncurry fst snd].
    destruct (decide (key = "price")) as [->|Hp].
    + right. vm_compute. reflexivity.
    + left. rewrite lookup_insert_ne by congruence.
      rewrite lookup_insert_ne by congruence. apply lookup_empty.
  - vm_compute. reflexivity.
Defined.

(** ** More on the alt text *)

Lemma rstrip_keep p c t :
  p c = false -> Text.rstrip p (String c t) = String c (Text.rstrip p t).
Proof.
  intros Hc. rewrite rstrip_cons, Hc. destruct (Text.rstrip p t); reflexivity.
Qed.

Lemma rstrip_prefix p : forall a t,
  Text.rstrip p t <> "" -> Text.rstrip p (a +:+ t) = a +:+ Text.rstrip p t.
Proof.
  induction a as [|c a IH]; intros t Ht; [reflexivity|].
  rewrite !app_cons, rstrip_cons, (IH t Ht).
  destruct (a +:+ Text.rstrip p t) eqn:E; [|reflexivity].
  destruct a; [rewrite app_empty in E; contradiction | discriminate E].
Qed.

(** X10 — without an override the alt text always reads "Image of", the
    title (or "product"), a period and then the rest, and it never ends in
    white space. *)
Theorem alt_text_shape (row : Series) :
  text_of (get row "alt_text_override" (VStr "")) = None ->
  (exists rest,
     generate_alt_text row
     = "Image of "
       +:+ Py.str (Py.or (get row "title" (VStr "")) (VStr "product"))
       +:+ "." +:+ rest)
  /\ last_is Text.is_space (generate_alt_text row) = false.
Proof.
  intros Ho. unfold generate_alt_text.
  destruct (text_cell_cases (get row "alt_text_override" (VStr "")))
    as [(o & _ & _ & Hs)|[-> _]]; [congruence|].
  set (title := Py.str (Py.or (get row "title" (VStr "")) (VStr "product"))).
  set (desc := match get row "short_desc" (VStr "") with
               | VStr d => _ | _ => "" end).
  clearbody title desc. unfold Text.strip. split; [|apply rstrip_last].
  rewrite lstrip_id by reflexivity.
  rewrite <- str_app_assoc.
  change (". " +:+ desc) with (String "." (String " " desc)).
  rewrite rstrip_prefix, (rstrip_keep _ "."%char) by
    (try rewrite (rstrip_keep _ "."%char) by reflexivity;
     first [reflexivity | discriminate]).
  rewrite str_app_assoc. eexists. reflexivity.
Qed.

Lemma alt_text_shape_witness :
  exists rest, generate_alt_text alt_row = "Image of " +:+ "Widget" +:+ "." +:+ rest.
Proof.
  assert (H : text_of (get alt_row "alt_text_override" (VStr "")) = None)
    by reflexivity.
  destruct (alt_text_shape alt_row H) as [[rest E] _].
  exists rest. exact E.
Defined.

(** ** More on the download loop *)

Section DownloadMore.

Variable env : Env.
Variable images_path : path.

Lemma download_loop_length : forall items,
  length (snd (download_loop env images_path items)) <= length items.
Proof.
  induction items as [|[i url] rest IH]; cbn [download_loop]; [reflexivity|].
  destruct (10 <=? i)%nat; [cbn; lia|].
  destruct (download_loop env images_path rest) as [saves names].
  destruct (attempt env i url); cbn [snd length] in *; lia.
Qed.

Lemma download_loop_firstn : forall (urls : list string) k,
  download_loop env images_path (enumerate_from k urls)
  = download_loop env images_path (enumerate_from k (firstn (10 - k) urls)).
Proof.
  unfold enumerate_from. induction urls as [|u urls IH]; intros k.
  - rewrite firstn_nil. reflexivity.
  - destruct (Nat.leb_spec 10 k) as [Hk|Hk].
    + replace (10 - k) with 0 by lia.
      cbn [firstn length seq combine download_loop].
      destruct (Nat.leb_spec 10 k); [reflexivity | lia].
    + replace (10 - k) with (S (10 - S k)) by lia.
      cbn [firstn length seq combine download_loop].
      rewrite (IH (S k)). reflexivity.
Qed.

Lemma download_loop_positions : forall (urls : list string) k n,
  In n (snd (download_loop env images_path (enumerate_from k urls))) ->
  exists i, k <= i /\ n = image_name (i + 1).
Proof.
  unfold enumerate_from. induction urls as [|u urls IH]; intros k n;
    [intros []|].
  cbn [length seq combine download_loop].
  destruct (10 <=? k)%nat; [intros []|].
  specialize (IH (S k) n).
  destruct (download_loop env images_path _) as [saves names].
  cbn [snd] in IH.
  destruct (attempt env k u) as [img|]; cbn [snd In].
  - intros [<-|Hin]; [exists k; split; [lia | reflexivity]|].
    destruct (IH Hin) as (i & Hi & ->). exists i. split; [lia | reflexivity].
  - intros Hin. destruct (IH Hin) as (i & Hi & ->).
    exists i. split; [lia | reflexivity].
Qed.

End DownloadMore.

Lemma to_int_nonnil (z : Z) :
  Z.to_int z <> Decimal.Pos Decimal.Nil /\ Z.to_int z <> Decimal.Neg Decimal.Nil.
Proof.
  destruct z as [|q|q]; cbn; split; try discriminate;
    intros [= E]; exact (DecimalPos.Unsigned.to_uint_nonnil q E).
Qed.

Lemma of_Z_inj (x y : Z) : Text.of_Z x = Text.of_Z y -> x = y.
Proof.
  unfold Text.of_Z. intros H.
  apply (f_equal NilZero.int_of_string) in H.
  destruct (to_int_nonnil x) as [Hx1 Hx2], (to_int_nonnil y) as [Hy1 Hy2].
  rewrite !NilZero.isi in H by assumption.
  injection H as H. exact (DecimalZ.to_int_inj _ _ H).
Qed.

Lemma image_name_inj (a b : nat) : image_name a = image_name b -> a = b.
Proof.
  unfold image_name. rewrite !app_cons, !app_empty. intros [= H].
  apply str_app_inv_tail, of_Z_inj in H. lia.
Qed.

(** X11 — the loop looks at the first ten URLs only: the URLs after the tenth
    change neither the files saved nor [downloaded_files], which never has
    more than ten names. *)
Theorem download_stops_at_ten
    (env : Env) (images_path : path) (urls : list string) :
  download_loop env images_path (enumerate urls)
  = download_loop env images_path (enumerate (firstn 10 urls))
  /\ length (snd (download_loop env images_path (enumerate urls))) <= 10.
Proof.
  pose proof (download_loop_firstn env images_path urls 0) as H.
  split; [exact H|].
  unfold enumerate. rewrite H.
  etransitivity; [apply download_loop_length|].
  unfold enumerate_from. rewrite length_combine, length_seq, Nat.min_id.
  apply firstn_le_length.
Qed.

(** X12 — no two pictures of a row share a file name, so none overwrites
    another. *)
Theorem image_names_distinct
    (env : Env) (images_path : path) (urls : list string) :
  NoDup (snd (download_loop env images_path (enumerate urls))).
Proof.
  unfold enumerate. generalize 0.
  induction urls as [|u urls IH]; intros k; [constructor|].
  pose proof (download_loop_positions env images_path urls (S k)) as Hpos.
  specialize (IH (S k)). unfold enumerate_from in *.
  cbn [length seq combine download_loop].
  destruct (10 <=? k)%nat; [constructor|].
  destruct (download_loop env images_path _) as [saves names].
  cbn [snd] in *.
  destruct (attempt env k u) as [img|]; cbn [snd]; [|exact IH].
  constructor; [|exact IH].
  intros Hin. apply list_elem_of_In in Hin.
  destruct (Hpos _ Hin) as (i & Hi & E).
  apply image_name_inj in E. lia.
Qed.

(** ** More on the bundle of one row *)

Lemma attempt_standard (env : Env) (i : nat) (url : string) (img : image) :
  attempt env i url = Some img -> standard_picture (Jpeg 90 img).
Proof.
  unfold attempt. destruct (requests_get env i url) as [|resp]; [discriminate|].
  destruct (status_ok resp); [|discriminate].
  destruct (image_open env (resp_content resp)); [|discriminate].
  intros [= <-]. repeat split.
Qed.

Lemma download_loop_standard (env : Env) (images_path : path) : forall items,
  Forall (fun e => exists n img,
            e = EvWrite (images_path // n) (Jpeg 90 img)
            /\ standard_picture (Jpeg 90 img)
            /\ In n (snd (download_loop env images_path items)))
         (fst (download_loop env images_path items)).
Proof.
  induction items as [|[i url] rest IH]; cbn [download_loop]; [constructor|].
  destruct (10 <=? i)%nat; [constructor|].
  destruct (download_loop env images_path rest) as [saves names].
  cbn [fst snd] in IH.
  destruct (attempt env i url) as [img|] eqn:Ha; cbn [fst snd]; [|exact IH].
  constructor.
  - exists (image_name (i + 1)), img.
    split; [reflexivity|].
    split; [exact (attempt_standard env i url img Ha) | now left].
  - eapply Forall_impl; [exact IH|].
    intros e (n & img' & -> & Hs & Hin). exists n, img'.
    split; [reflexivity|]. split; [exact Hs | now right].
Qed.

(** The three text files come last, under the product directory. *)
Lemma process_product_trace (env : Env) (row : Series) (out_dir : path)
    (product_id : string) :
  resolve_product_id row = Ok product_id ->
  let prod_path := out_dir // slugify product_id in
  let images_path := prod_path // "images" in
  let loop := download_loop env images_path (enumerate (image_urls row)) in
  process_product env row out_dir =
  match generate_caption row with
  | Raise e => (EvMkdir images_path :: fst loop, Raise e)
  | Ok caption =>
      (EvMkdir images_path :: fst loop ++
       [EvWrite (prod_path // "caption.txt") (Text_ caption);
        EvWrite (prod_path // "alt_text.txt") (Text_ (generate_alt_text row));
        EvWrite (prod_path // "meta.json")
          (Json {| m_product_id := product_id;
                   m_title := get1 row "title";
                   m_post_type := get1 row "post_type";
                   m_images := snd loop;
                   m_caption_file := "caption.txt";
                   m_alt_text_file := "alt_text.txt";
                   m_affiliate_url := get1 row "affiliate_url" |})],
       Ok tt)
  end.
Proof.
  intros Hid. cbv zeta. unfold process_product. rewrite Hid.
  destruct (download_loop env _ _) as [saves names].
  destruct (generate_caption row); reflexivity.
Qed.

(** X13 — every file-system operation of a row stays inside the row's own
    directory, the output directory followed by the slug of the identifier. *)
Theorem writes_stay_in_product_directory
    (env : Env) (row : Series) (out_dir : path) :
  Forall (fun e => exists product_id rest,
            resolve_product_id row = Ok product_id
            /\ event_path e = (out_dir // slugify product_id) ++ rest)
         (fst (process_product env row out_dir)).
Proof.
  destruct (resolve_product_id row) as [product_id|e] eqn:Hid.
  - rewrite (process_product_trace env row out_dir product_id Hid). cbv zeta.
    set (prod_path := out_dir // slugify product_id).
    pose proof (download_loop_standard env (prod_path // "images")
                  (enumerate (image_urls row))) as Hs.
    assert (Hsaves : Forall (fun e => exists product_id0 rest,
                       Ok product_id = Ok product_id0
                       /\ event_path e = (out_dir // slugify product_id0) ++ rest)
                     (fst (download_loop env (prod_path // "images")
                             (enumerate (image_urls row))))).
    { eapply Forall_impl; [exact Hs|].
      intros e (n & img & -> & _). exists product_id, ["images"; n].
      split; [reflexivity|]. cbn [event_path]. unfold child, prod_path.
      rewrite <- (app_assoc _ ["images"] [n]). reflexivity. }
    assert (Hmk : exists product_id0 rest,
              Ok product_id = Ok product_id0
              /\ event_path (EvMkdir (prod_path // "images"))
                 = (out_dir // slugify product_id0) ++ rest).
    { exists product_id, ["images"]. split; reflexivity. }
    destruct (generate_caption row) as [caption|e]; cbn [fst].
    + constructor; [exact Hmk|]. apply Forall_app. split; [exact Hsaves|].
      repeat constructor; eexists product_id, [_]; split; reflexivity.
    + constructor; [exact Hmk | exact Hsaves].
  - unfold process_product. rewrite Hid. constructor.
Qed.

Lemma written_under_elsewhere (d d' : path) (saves : list event)
    (names : list string) :
  d <> d' ->
  Forall2 (fun e n => exists img, e = EvWrite (d // n) (Jpeg 90 img)) saves names ->
  written_under d' saves = [].
Proof.
  intros Hd. induction 1 as [|e n saves names [img ->] _ IH]; [reflexivity|].
  rewrite written_under_child, IH. destruct (decide (d = d')); congruence.
Qed.

(** X14 — when the caption of a row cannot be composed the call raises after
    the pictures were saved: the images are on disk, and no caption.txt,
    alt_text.txt or meta.json is written for the row. *)
Theorem caption_failure_leaves_pictures_only
    (env : Env) (row : Series) (out_dir : path) (product_id : string) (e : exn) :
  resolve_product_id row = Ok product_id ->
  generate_caption row = Raise e ->
  let prod_path := out_dir // slugify product_id in
  exists trace,
    process_product env row out_dir = (trace, Raise e)
    /\ written_under prod_path trace = []
    /\ written_under (prod_path // "images") trace
       = map (fun item => image_name (fst item + 1))
             (List.filter (succeeds env) (attempted (image_urls row))).
Proof.
  intros Hid Hcap. cbv zeta.
  rewrite (process_product_trace env row out_dir product_id Hid), Hcap.
  cbv zeta. eexists. split; [reflexivity|].
  set (prod_path := out_dir // slugify product_id).
  pose proof (download_loop_saves env (prod_path // "images")
                (enumerate (image_urls row))) as Hs.
  cbn [written_under]. split.
  - eapply written_under_elsewhere; [|exact Hs]. apply child_not_self.
  - rewrite (written_under_saves _ _ _ Hs).
    apply (download_loop_names env _ (image_urls row) 0).
Qed.

Lemma caption_failure_leaves_pictures_only_witness :
  exists trace,
    process_product online wordy_row ["out"] = (trace, Raise ValueError)
    /\ written_under ["out"; "p1"] trace = []
    /\ written_under ["out"; "p1"; "images"] trace
       = ["image_1.jpg"; "image_2.jpg"].
Proof.
  assert (Hid : resolve_product_id wordy_row = Ok "p1")
    by (vm_compute; reflexivity).
  assert (Hcap : generate_caption wordy_row = Raise ValueError)
    by (vm_compute; reflexivity).
  destruct (caption_failure_leaves_pictures_only
              online wordy_row ["out"] "p1" ValueError Hid Hcap)
    as (trace & Hrun & Hnone & Himgs).
  exists trace. split; [exact Hrun|]. split; [exact Hnone | exact Himgs].
Defined.

(** X15 — a row is given up before any file-system operation exactly when it
    has no usable identifier and its title is not a text (an empty cell, a
    number): the call then raises AttributeError and creates nothing. *)
Theorem no_identifier_no_operation
    (env : Env) (row : Series) (out_dir : path) :
  let untitled :=
    Py.truthy (get1 row "product_id") = false
    /\ Py.is_str (get row "title" (VStr "post")) = false in
  (fst (process_product env row out_dir) = [] <-> untitled)
  /\ (process_product env row out_dir = ([], Raise AttributeError) <-> untitled).
Proof.
  cbv zeta.
  assert (Hres : (exists e, resolve_product_id row = Raise e) <->
                 Py.truthy (get1 row "product_id") = false
                 /\ Py.is_str (get row "title" (VStr "post")) = false).
  { unfold resolve_product_id.
    destruct (Py.truthy (get1 row "product_id")).
    - split; [intros [e H]; discriminate H | intros [H _]; discriminate H].
    - destruct (get row "title" (VStr "post")); cbn [Py.is_str];
        (split; [intros [e H]; try discriminate H; split; reflexivity
                | intros [_ H]; try discriminate H; eexists; reflexivity]). }
  assert (Hexn : forall e, resolve_product_id row = Raise e -> e = AttributeError).
  { unfold resolve_product_id. intros e.
    destruct (Py.truthy (get1 row "product_id")); [discriminate|].
    destruct (get row "title" (VStr "post")); congruence. }
  rewrite <- Hres.
  destruct (resolve_product_id row) as [product_id|e] eqn:Hid.
  - rewrite (process_product_trace env row out_dir product_id Hid). cbv zeta.
    destruct (generate_caption row); cbn [fst];
      (split; split; [discriminate | intros [e' H]; discriminate H
                     | discriminate | intros [e' H]; discriminate H]).
  - unfold process_product. rewrite Hid. rewrite (Hexn e eq_refl). cbn [fst].
    split; split; try reflexivity; intros _; eexists; reflexivity.
Qed.

Lemma fs_after_untouched (p : path) : forall (trace : list event) (fs : FS),
  Forall (fun e => match e with EvWrite q _ => q <> p | EvMkdir _ => True end)
         trace ->
  fs_after fs trace !! p = fs !! p.
Proof.
  unfold fs_after. induction trace as [|e trace IH]; intros fs H; [reflexivity|].
  inversion H as [|? ? He Ht]; subst. cbn [fold_left].
  rewrite (IH _ Ht). destruct e as [q|q c]; [reflexivity|].
  cbn [apply_event]. apply lookup_insert_ne. exact He.
Qed.

(** X16 — a row's run leaves alone every file of its images/ directory whose
    name is not one it saves: a picture left there by an earlier run stays
    on disk although it is not listed in meta.json. *)
Theorem other_pictures_untouched
    (env : Env) (row : Series) (out_dir : path) (fs : FS)
    (product_id name : string) :
  resolve_product_id row = Ok product_id ->
  ~ In name (map (fun item => image_name (fst item + 1))
                 (List.filter (succeeds env) (attempted (image_urls row)))) ->
  let images_path := out_dir // slugify product_id // "images" in
  fs_after fs (fst (process_product env row out_dir)) !! (images_path // name)
  = fs !! (images_path // name).
Proof.
  intros Hid Hname. cbv zeta. apply fs_after_untouched.
  rewrite (process_product_trace env row out_dir product_id Hid). cbv zeta.
  set (prod_path := out_dir // slugify product_id).
  pose proof (download_loop_standard env (prod_path // "images")
                (enumerate (image_urls row))) as Hs.
  rewrite (download_loop_names env _ (image_urls row) 0 : snd (download_loop _ _ (enumerate _)) = _) in Hs.
  assert (Hsaves : Forall (fun e => match e with
                                    | EvWrite q _ => q <> prod_path // "images" // name
                                    | EvMkdir _ => True
                                    end)
                     (fst (download_loop env (prod_path // "images")
                             (enumerate (image_urls row))))).
  { eapply Forall_impl; [exact Hs|].
    intros e (n & img & -> & _ & Hin) E. apply child_inj in E. subst n.
    exact (Hname Hin). }
  destruct (generate_caption row) as [caption|e]; cbn [fst].
  - constructor; [exact I|]. apply Forall_app. split; [exact Hsaves|].
    repeat constructor; intros E; symmetry in E;
      exact (grandchild_not_child _ _ _ _ E).
  - constructor; [exact I | exact Hsaves].
Qed.

Lemma other_pictures_untouched_witness :
  fs_after {[ ["out"; "p1"; "images"; "image_1.jpg"] := Text_ "old" ]}
           (fst (process_product first_fails two_urls_row ["out"]))
    !! ["out"; "p1"; "images"; "image_1.jpg"]
  = Some (Text_ "old").
Proof.
  assert (Hid : resolve_product_id two_urls_row = Ok "p1")
    by (vm_compute; reflexivity).
  assert (Hname : ~ In "image_1.jpg"
            (map (fun item => image_name (fst item + 1))
               (List.filter (succeeds first_fails)
                  (attempted (image_urls two_urls_row))))).
  { vm_compute. intros [H|[]]. discriminate H. }
  rewrite (other_pictures_untouched first_fails two_urls_row ["out"]
             {[ ["out"; "p1"; "images"; "image_1.jpg"] := Text_ "old" ]}
             "p1" "image_1.jpg" Hid Hname : _ !! ["out"; "p1"; "images"; "image_1.jpg"] = _).
  apply lookup_singleton_eq.
Defined.

(** ** The batch *)

Lemma process_product_returns_iff (env : Env) (row : Series) (out_dir : path) :
  snd (process_product env row out_dir) = Ok tt <-> row_ok row.
Proof.
  unfold row_ok.
  destruct (resolve_product_id row) as [product_id|e] eqn:Hid.
  - rewrite (process_product_trace env row out_dir product_id Hid). cbv zeta.
    destruct (generate_caption row) as [caption|e]; cbn [snd].
    + split; [intros _; split; eexists; reflexivity | reflexivity].
    + split; [discriminate | intros [_ [c Hc]]; discriminate Hc].
  - unfold process_product. rewrite Hid. cbn [snd].
    split; [discriminate | intros [[p Hp] _]; discriminate Hp].
Qed.

Lemma process_rows_step (world : nat -> Env) (k : nat) (row : Series)
    (rest : list Series) (out_path : path) :
  process_rows world k (row :: rest) out_path =
  match snd (process_product (world k) row out_path) with
  | Ok _ =>
      (fst (process_product (world k) row out_path)
       ++ fst (process_rows world (S k) rest out_path),
       snd (process_rows world (S k) rest out_path))
  | Raise e => (fst (process_product (world k) row out_path), RowRaised k e)
  end.
Proof.
  cbn [process_rows].
  destruct (process_product (world k) row out_path) as [trace [u|e]];
    [|reflexivity].
  destruct (process_rows world (S k) rest out_path). reflexivity.
Qed.

Lemma process_rows_app (world : nat -> Env) (out_path : path)
    (more : list Series) :
  forall rows k,
    Forall row_ok rows ->
    process_rows world k (rows ++ more) out_path
    = (fst (process_rows world k rows out_path)
       ++ fst (process_rows world (k + length rows) more out_path),
       snd (process_rows world (k + length rows) more out_path)).
Proof.
  induction rows as [|row rest IH]; intros k Hok.
  - cbn [app length process_rows fst]. rewrite Nat.add_0_r.
    destruct (process_rows world k more out_path). reflexivity.
  - apply Forall_cons in Hok as [Hrow Hrest].
    apply (process_product_returns_iff (world k) row out_path) in Hrow.
    cbn [app length]. rewrite !process_rows_step, Hrow. cbn [fst snd].
    rewrite (IH (S k) Hrest). cbn [fst snd].
    replace (k + S (length rest)) with (S k + length rest) by lia.
    rewrite app_assoc. reflexivity.
Qed.

(** X19 — the first row that raises ends the batch: the rows after it are
    not processed, so the run does exactly what it would do if the table
    stopped at that row, and it ends with that row's number. *)
Theorem batch_stops_at_first_failure
    (world : nat -> Env) (out_path : path)
    (good : list Series) (bad : Series) (rest : list Series) :
  Forall row_ok good ->
  ~ row_ok bad ->
  main world (Table (good ++ bad :: rest)) out_path
  = main world (Table (good ++ [bad])) out_path
  /\ exists e,
       snd (main world (Table (good ++ bad :: rest)) out_path)
       = RowRaised (length good) e.
Proof.
  intros Hgood Hbad. cbn [main].
  rewrite !(process_rows_app world out_path _ good 0 Hgood). cbn [Nat.add].
  rewrite !process_rows_step.
  rewrite <- (process_product_returns_iff (world (length good)) bad out_path)
    in Hbad.
  destruct (snd (process_product (world (length good)) bad out_path))
    as [[]|e]; [contradiction|].
  cbn [fst snd]. split; [reflexivity | exists e; reflexivity].
Qed.

Lemma batch_stops_at_first_failure_witness :
  main (fun _ => online) (Table ([two_urls_row] ++ wordy_row :: [widget_row])) ["out"]
  = main (fun _ => online) (Table ([two_urls_row] ++ [wordy_row])) ["out"].
Proof.
  apply (batch_stops_at_first_failure (fun _ => online) ["out"]
           [two_urls_row] wordy_row [widget_row]).
  - constructor; [|constructor].
    split; eexists; vm_compute; reflexivity.
  - intros [_ [caption H]]. vm_compute in H. discriminate H.
Defined.

Lemma fs_after_app (fs : FS) (t1 t2 : list event) :
  fs_after fs (t1 ++ t2) = fs_after (fs_after fs t1) t2.
Proof. unfold fs_after. apply fold_left_app. Qed.

(** The text files of a row that is processed, on disk after its run. *)
Lemma bundle_on_disk (env : Env) (row : Series) (out_dir : path) (fs : FS)
    (product_id caption : string) :
  resolve_product_id row = Ok product_id ->
  generate_caption row = Ok caption ->
  let prod_path := out_dir // slugify product_id in
  let after := fs_after fs (fst (process_product env row out_dir)) in
  after !! (prod_path // "caption.txt") = Some (Text_ caption)
  /\ exists m, after !! (prod_path // "meta.json") = Some (Json m)
               /\ m_product_id m = product_id
               /\ m_title m = get1 row "title".
Proof.
  intros Hid Hcap. cbv zeta.
  rewrite (process_product_trace env row out_dir product_id Hid), Hcap.
  cbv zeta. cbn [fst].
  set (prod_path := out_dir // slugify product_id).
  assert (Hne : forall a b : string, a <> b -> prod_path // a <> prod_path // b).
  { intros a b Hab E. apply child_inj in E. contradiction. }
  change (EvMkdir ?p :: ?l ++ ?r) with ((EvMkdir p :: l) ++ r).
  rewrite fs_after_app. unfold fs_after at 1 3. cbn [fold_left apply_event].
  split.
  - rewrite !lookup_insert_ne by (apply Hne; discriminate).
    apply lookup_insert_eq.
  - eexists. split; [apply lookup_insert_eq|]. split; reflexivity.
Qed.

(** X20 — after a batch whose rows all go through, the caption and the
    metadata of the last row are on disk under its directory, also when an
    earlier row was written to the same directory: the later row wins. *)
Theorem last_row_wins
    (world : nat -> Env) (out_path : path) (fs : FS)
    (rows : list Series) (row : Series) (product_id caption : string) :
  Forall row_ok rows ->
  resolve_product_id row = Ok product_id ->
  generate_caption row = Ok caption ->
  let prod_path := out_path // slugify product_id in
  let after := fs_after fs (fst (main world (Table (rows ++ [row])) out_path)) in
  after !! (prod_path // "caption.txt") = Some (Text_ caption)
  /\ exists m, after !! (prod_path // "meta.json") = Some (Json m)
               /\ m_product_id m = product_id
               /\ m_title m = get1 row "title".
Proof.
  intros Hrows Hid Hcap. cbv zeta. cbn [main].
  rewrite (process_rows_app world out_path [row] rows 0 Hrows). cbn [Nat.add].
  rewrite process_rows_step.
  assert (Hok : snd (process_product (world (length rows)) row out_path) = Ok tt).
  { apply process_product_returns_iff. split; eexists; eassumption. }
  rewrite Hok. cbn [process_rows fst snd]. rewrite app_nil_r.
  change (EvMkdir out_path :: ?a ++ ?b) with ((EvMkdir out_path :: a) ++ b).
  rewrite fs_after_app.
  exact (bundle_on_disk (world (length rows)) row out_path _ product_id caption
           Hid Hcap).
Qed.

Lemma last_row_wins_witness :
  exists m,
    fs_after ∅ (fst (main (fun _ => offline)
                       (Table ([two_urls_row] ++ [untitled_row])) ["out"]))
      !! ["out"; "p1"; "meta.json"] = Some (Json m)
    /\ m_title m = VNaN.
Proof.
  assert (Hrows : Forall row_ok [two_urls_row]).
  { constructor; [|constructor]. split; eexists; vm_compute; reflexivity. }
  assert (Hid : resolve_product_id untitled_row = Ok "p1")
    by (vm_compute; reflexivity).
  assert (Hcap : generate_caption untitled_row = Ok _)
    by (vm_compute; reflexivity).
  destruct (last_row_wins (fun _ => offline) ["out"] ∅ [two_urls_row]
              untitled_row "p1" _ Hrows Hid Hcap) as (_ & m & Hm & _ & Ht).
  exists m. split; [exact Hm | exact Ht].
Defined.

(** X21 — whenever the title cell counts as true the caption opens with the
    line "Check out {title}!". *)
Theorem caption_opens_with_title (row : Series) (caption : string) :
  Py.truthy (get row "title" (VStr "")) = true ->
  generate_caption row = Ok caption ->
  exists rest,
    caption = "Check out " +:+ Py.str (get row "title" (VStr "")) +:+ "!" +:+ rest.
Proof.
  intros Ht. rewrite caption_layout.
  assert (Hopen : forall opening, opening_lines row = Ok opening ->
            exists more,
              opening = ("Check out " +:+ Py.str (get row "title" (VStr ""))
                         +:+ "!") :: more).
  { unfold opening_lines. cbv zeta. rewrite Ht. intros opening.
    destruct (Py.truthy (get1 row "rating") && _).
    - destruct (if Py.truthy (get1 row "review_count") && _ then _ else _);
        cbn [bind]; [|discriminate].
      intros [= <-]. eexists. reflexivity.
    - intros [= <-]. eexists. reflexivity. }
  destruct (opening_lines row) as [opening|e]; cbn [bind]; [|discriminate].
  destruct (Hopen opening eq_refl) as [more ->]. intros [= <-].
  cbn [app]. unfold join.
  destruct (more ++ call_to_action row ++ hashtag_line row ++ [disclosure_line row])
    as [|y l] eqn:E.
  - exists "". reflexivity.
  - exists (nl +:+ String.concat nl (y :: l)).
    change (String.concat nl (?x :: y :: l))
      with (x +:+ nl +:+ String.concat nl (y :: l)).
    rewrite !str_app_assoc. reflexivity.
Qed.

Lemma caption_opens_with_title_witness :
  exists rest,
    generate_caption untitled_row = Ok ("Check out " +:+ "nan" +:+ "!" +:+ rest).
Proof.
  assert (Ht : Py.truthy (get untitled_row "title" (VStr "")) = true)
    by reflexivity.
  assert (Hc : generate_caption untitled_row = Ok _) by (vm_compute; reflexivity).
  destruct (caption_opens_with_title untitled_row _ Ht Hc) as [rest E].
  exists rest. rewrite Hc. f_equal. exact E.
Defined.
